(** * A shallow embedding of the Spot driver and the nav-goal listener

    The two ROS 2 nodes of the repository are sequences of calls into two
    external frameworks (rclpy and the Boston Dynamics SDK).  The embedding
    keeps the node object as an explicit record, threads it through a small
    state-and-exception monad, and records every call that leaves the node
    (together with what the callee answered) in a chronological trace.  The
    frameworks themselves are an arbitrary environment: a function from the
    history so far and the call being made to the answer. *)

From Stdlib Require Import List String Floats Bool Arith ZArith Lia.
Import ListNotations.
Set Warnings "-inexact-float".
Open Scope string_scope.
Open Scope list_scope.

(** ** Python exceptions

    Only the classes that some [except] clause of the sources tells apart,
    and the ones the sources raise themselves. *)

Inductive exn :=
| RpcError            (* bosdyn.client.RpcError *)
| ResponseError       (* bosdyn.client.ResponseError *)
| LeaseError          (* bosdyn.client.lease.Error *)
| AssertionError (msg : string)
| AttributeError      (* attribute access on None *)
| TransformException  (* tf2_ros lookup/connectivity/extrapolation errors *)
| RuntimeError        (* any other subclass of Exception *)
| KeyboardInterrupt.  (* a BaseException that is not an Exception *)

(** [except (RpcError, ResponseError, LeaseError)] *)
Definition is_sdk_error (e : exn) : bool :=
  match e with RpcError | ResponseError | LeaseError => true | _ => false end.

(** [except (RpcError, ResponseError)] *)
Definition is_command_error (e : exn) : bool :=
  match e with RpcError | ResponseError => true | _ => false end.

(** [except Exception] *)
Definition is_Exception (e : exn) : bool :=
  match e with KeyboardInterrupt => false | _ => true end.

(** [except KeyboardInterrupt] *)
Definition is_KeyboardInterrupt (e : exn) : bool :=
  match e with KeyboardInterrupt => true | _ => false end.

(** ** The monad: environment, mutable world, exceptions *)

Inductive result (A : Type) :=
| Ok (a : A)
| Raise (e : exn).
Arguments Ok {A} a.
Arguments Raise {A} e.

Definition M (E W A : Type) : Type := E -> W -> result A * W.

Section Monad.
Context {E W : Type}.

Definition ret {A} (a : A) : M E W A := fun _ w => (Ok a, w).

Definition bind {A B} (c : M E W A) (k : A -> M E W B) : M E W B :=
  fun env w =>
    match c env w with
    | (Ok a, w') => k a env w'
    | (Raise e, w') => (Raise e, w')
    end.

Definition raise {A} (e : exn) : M E W A := fun _ w => (Raise e, w).

Definition gets {A} (f : W -> A) : M E W A := fun _ w => (Ok (f w), w).

Definition modify (f : W -> W) : M E W unit := fun _ w => (Ok tt, f w).

Definition ask {A} (f : E -> A) : M E W A := fun env w => (Ok (f env), w).

(** [if b: c] *)
Definition when (b : bool) (c : M E W unit) : M E W unit :=
  if b then c else ret tt.

(** [try: c  except <classes>: h].  Mutations made by [c] before it
    raised stay in place, as in Python. *)
Definition try_except {A} (c : M E W A) (classes : exn -> bool)
           (h : exn -> M E W A) : M E W A :=
  fun env w =>
    match c env w with
    | (Ok a, w') => (Ok a, w')
    | (Raise e, w') => if classes e then h e env w' else (Raise e, w')
    end.

(** [try: c  finally: f].  An exception raised by [f] replaces the one
    in flight. *)
Definition try_finally {A} (c : M E W A) (f : M E W unit) : M E W A :=
  fun env w =>
    match c env w with
    | (r, w') =>
        match f env w' with
        | (Ok _, w'') => (r, w'')
        | (Raise e, w'') => (Raise e, w'')
        end
    end.
End Monad.

Notation "x <- c ;; k" := (bind c (fun x => k))
  (at level 61, c at next level, right associativity).
Notation "c ;; k" := (bind c (fun _ => k))
  (at level 61, right associativity).

(** ** Messages and SDK values *)

Record Vector3 := { vx : float; vy : float; vz : float }.
Record Quaternion := { qx : float; qy : float; qz : float; qw : float }.

(** geometry_msgs/Twist *)
Record Twist := { linear : Vector3; angular : Vector3 }.

(** bosdyn.api.geometry_pb2.SE3Pose *)
Record SE3Pose := { position : Vector3; rotation : Quaternion }.

(** geometry_msgs/TransformStamped *)
Record TransformStamped := {
  stamp : Z;                       (* header.stamp, nanoseconds *)
  frame_id : string;               (* header.frame_id *)
  child_frame_id : string;
  translation : Vector3;
  transform_rotation : Quaternion
}.

(** The result of [RobotCommandBuilder.synchro_velocity_command]: the three
    rates it was given. *)
Record RobotCommand := { v_x : float; v_y : float; v_rot : float }.

Definition synchro_velocity_command (v_x v_y v_rot : float) : RobotCommand :=
  {| v_x := v_x; v_y := v_y; v_rot := v_rot |}.

Definition ODOM_FRAME_NAME : string := "odom".
Definition GRAV_ALIGNED_BODY_FRAME_NAME : string := "flat_body".

(** A telemetry record.  Of its frame tree only what [get_a_tform_b]
    answers for a pair of frame names matters here; the SDK function
    returns [None] when the frames are not connected. *)
Record RobotState := {
  transforms_snapshot : string -> string -> option SE3Pose
}.

Definition get_a_tform_b (snapshot : string -> string -> option SE3Pose)
           (a b : string) : option SE3Pose := snapshot a b.

Inductive service :=
| RobotStateClient | RobotStateStreamingClient | RobotCommandClient
| LeaseClient | EstopClient.

(** Handles to SDK and rclpy objects.  All of them are plain objects, hence
    truthy, so [if self.x:] is the test [self.x is not None]. *)
Inductive Robot := robot_of (hostname : string).
Inductive Client := client_of (s : service).
Inductive LeaseKeepAlive := LeaseKeepAlive_obj.
Inductive EstopKeepAlive := EstopKeepAlive_obj.
Inductive RosHandle := ros_handle.

Definition truthy {A} (o : option A) : bool :=
  match o with Some _ => true | None => false end.

(** Severity of a log line. *)
Inductive level := DEBUG | INFO | WARN | ERROR.

(** ** The driver node: calls, trace, environment *)

Module SpotROS2Driver.

(** Every call that leaves the node.  Arguments are the ones the source
    passes. *)
Inductive action :=
(* rclpy and the Python runtime *)
| rclpy_init
| Node_init (name : string)
| declare_parameter (name default : string)
| TransformBroadcaster_init
| create_subscription (topic : string) (qos : Z)
| Thread_start
| create_timer (period : float)
| sendTransform (t : TransformStamped)
| rclpy_ok
| destroy_node
| time_sleep (secs : float)
(* Boston Dynamics SDK *)
| create_standard_sdk (name : string)
| register_service_client (s : service)
| create_robot (hostname : string)
| authenticate
| wait_for_sync
| is_estopped
| ensure_client (s : service)
| LeaseKeepAlive_init (must_acquire return_at_exit : bool)
| EstopEndpoint_init (name : string) (estop_timeout : float)
| force_simple_setup
| EstopKeepAlive_init
| power_on (timeout_sec : Z)
| is_powered_on
| blocking_stand (timeout_sec : Z)
| robot_command (command : RobotCommand) (end_time_secs : float)
| power_off (cut_immediately : bool) (timeout_sec : Z)
| EstopKeepAlive_shutdown
| LeaseKeepAlive_shutdown.

(** What the callee did: it returned (the boolean is the truth value of what
    it returned, which is all the sources ever look at) or it raised. *)
Inductive response :=
| Returns (b : bool)
| Raises (e : exn).

(** Log lines and prints; f-strings keep their interpolated values. *)
Inductive text :=
| Lit (s : string)
| FmtExn (prefix : string) (e : exn)
| FmtType (prefix : string)
| FmtVel (v_x v_y v_rot : float).

Inductive event :=
| Called (a : action) (r : response)
| Logged (l : level) (t : text)
| Printed (t : text).

(** One item of the robot-state stream as the [for] loop sees it. *)
Inductive stream_item :=
| yields (robot_state : RobotState)
| fails (e : exn).

(** What the executor does next while [rclpy.spin] runs. *)
Inductive spin_item :=
| on_cmd_vel (msg : Twist)          (* a Twist arrives on cmd_vel *)
| on_timer                          (* the 0.1 s timer fires *)
| on_telemetry (robot_state : RobotState)
                                    (* the reader thread runs one iteration *)
| interrupt (e : exn).              (* e.g. KeyboardInterrupt on SIGINT *)

(** The world outside the node. *)
Record Env := {
  respond : list event -> action -> response;
  parameter : string -> option string;      (* ROS parameter overrides *)
  time_time : list event -> float;          (* time.time() *)
  clock_now : list event -> Z;              (* self.get_clock().now() *)
  stream : list stream_item;                (* get_robot_state_stream() *)
  schedule : list spin_item                 (* what happens during spin *)
}.

(** The attributes of the node object.  An attribute that has not been
    assigned yet reads as [None]. *)
Record Driver := {
  hostname : string;
  _latest_state : option RobotState;
  robot : option Robot;
  lease_keep_alive : option LeaseKeepAlive;
  estop_keep_alive : option EstopKeepAlive;
  robot_state_client : option Client;
  robot_state_streaming_client : option Client;
  command_client : option Client;
  tf_broadcaster : option RosHandle;
  cmd_vel_subscriber : option RosHandle;
  _state_thread : option RosHandle;
  timer : option RosHandle
}.

Definition blank : Driver :=
  {| hostname := ""; _latest_state := None; robot := None;
     lease_keep_alive := None; estop_keep_alive := None;
     robot_state_client := None; robot_state_streaming_client := None;
     command_client := None; tf_broadcaster := None;
     cmd_vel_subscriber := None; _state_thread := None; timer := None |}.

(** The node object, [main]'s local variable [spot_driver_node] (whether it
    is bound to the node or still [None]) and the trace. *)
Record World := {
  self : Driver;
  spot_driver_node : bool;
  trace : list event
}.

Definition boot : World :=
  {| self := blank; spot_driver_node := false; trace := [] |}.

Definition with_self (f : Driver -> Driver) (w : World) : World :=
  {| self := f (self w); spot_driver_node := spot_driver_node w;
     trace := trace w |}.

Definition with_node (b : bool) (w : World) : World :=
  {| self := self w; spot_driver_node := b; trace := trace w |}.

Definition emit (ev : event) (w : World) : World :=
  {| self := self w; spot_driver_node := spot_driver_node w;
     trace := trace w ++ [ev] |}.

(** Attribute assignment, one function per attribute. *)
Definition set_hostname (v : string) (d : Driver) : Driver :=
  {| hostname := v; _latest_state := _latest_state d; robot := robot d;
     lease_keep_alive := lease_keep_alive d;
     estop_keep_alive := estop_keep_alive d;
     robot_state_client := robot_state_client d;
     robot_state_streaming_client := robot_state_streaming_client d;
     command_client := command_client d; tf_broadcaster := tf_broadcaster d;
     cmd_vel_subscriber := cmd_vel_subscriber d;
     _state_thread := _state_thread d; timer := timer d |}.

Definition set_latest_state (v : option RobotState) (d : Driver) : Driver :=
  {| hostname := hostname d; _latest_state := v; robot := robot d;
     lease_keep_alive := lease_keep_alive d;
     estop_keep_alive := estop_keep_alive d;
     robot_state_client := robot_state_client d;
     robot_state_streaming_client := robot_state_streaming_client d;
     command_client := command_client d; tf_broadcaster := tf_broadcaster d;
     cmd_vel_subscriber := cmd_vel_subscriber d;
     _state_thread := _state_thread d; timer := timer d |}.

Definition set_robot (v : option Robot) (d : Driver) : Driver :=
  {| hostname := hostname d; _latest_state := _latest_state d; robot := v;
     lease_keep_alive := lease_keep_alive d;
     estop_keep_alive := estop_keep_alive d;
     robot_state_client := robot_state_client d;
     robot_state_streaming_client := robot_state_streaming_client d;
     command_client := command_client d; tf_broadcaster := tf_broadcaster d;
     cmd_vel_subscriber := cmd_vel_subscriber d;
     _state_thread := _state_thread d; timer := timer d |}.

Definition set_lease_keep_alive (v : option LeaseKeepAlive) (d : Driver)
  : Driver :=
  {| hostname := hostname d; _latest_state := _latest_state d;
     robot := robot d; lease_keep_alive := v;
     estop_keep_alive := estop_keep_alive d;
     robot_state_client := robot_state_client d;
     robot_state_streaming_client := robot_state_streaming_client d;
     command_client := command_client d; tf_broadcaster := tf_broadcaster d;
     cmd_vel_subscriber := cmd_vel_subscriber d;
     _state_thread := _state_thread d; timer := timer d |}.

Definition set_estop_keep_alive (v : option EstopKeepAlive) (d : Driver)
  : Driver :=
  {| hostname := hostname d; _latest_state := _latest_state d;
     robot := robot d; lease_keep_alive := lease_keep_alive d;
     estop_keep_alive := v;
     robot_state_client := robot_state_client d;
     robot_state_streaming_client := robot_state_streaming_client d;
     command_client := command_client d; tf_broadcaster := tf_broadcaster d;
     cmd_vel_subscriber := cmd_vel_subscriber d;
     _state_thread := _state_thread d; timer := timer d |}.

Definition set_robot_state_client (v : option Client) (d : Driver) : Driver :=
  {| hostname := hostname d; _latest_state := _latest_state d;
     robot := robot d; lease_keep_alive := lease_keep_alive d;
     estop_keep_alive := estop_keep_alive d;
     robot_state_client := v;
     robot_state_streaming_client := robot_state_streaming_client d;
     command_client := command_client d; tf_broadcaster := tf_broadcaster d;
     cmd_vel_subscriber := cmd_vel_subscriber d;
     _state_thread := _state_thread d; timer := timer d |}.

Definition set_robot_state_streaming_client (v : option Client) (d : Driver)
  : Driver :=
  {| hostname := hostname d; _latest_state := _latest_state d;
     robot := robot d; lease_keep_alive := lease_keep_alive d;
     estop_keep_alive := estop_keep_alive d;
     robot_state_client := robot_state_client d;
     robot_state_streaming_client := v;
     command_client := command_client d; tf_broadcaster := tf_broadcaster d;
     cmd_vel_subscriber := cmd_vel_subscriber d;
     _state_thread := _state_thread d; timer := timer d |}.

Definition set_command_client (v : option Client) (d : Driver) : Driver :=
  {| hostname := hostname d; _latest_state := _latest_state d;
     robot := robot d; lease_keep_alive := lease_keep_alive d;
     estop_keep_alive := estop_keep_alive d;
     robot_state_client := robot_state_client d;
     robot_state_streaming_client := robot_state_streaming_client d;
     command_client := v; tf_broadcaster := tf_broadcaster d;
     cmd_vel_subscriber := cmd_vel_subscriber d;
     _state_thread := _state_thread d; timer := timer d |}.

Definition set_tf_broadcaster (v : option RosHandle) (d : Driver) : Driver :=
  {| hostname := hostname d; _latest_state := _latest_state d;
     robot := robot d; lease_keep_alive := lease_keep_alive d;
     estop_keep_alive := estop_keep_alive d;
     robot_state_client := robot_state_client d;
     robot_state_streaming_client := robot_state_streaming_client d;
     command_client := command_client d; tf_broadcaster := v;
     cmd_vel_subscriber := cmd_vel_subscriber d;
     _state_thread := _state_thread d; timer := timer d |}.

Definition set_cmd_vel_subscriber (v : option RosHandle) (d : Driver)
  : Driver :=
  {| hostname := hostname d; _latest_state := _latest_state d;
     robot := robot d; lease_keep_alive := lease_keep_alive d;
     estop_keep_alive := estop_keep_alive d;
     robot_state_client := robot_state_client d;
     robot_state_streaming_client := robot_state_streaming_client d;
     command_client := command_client d; tf_broadcaster := tf_broadcaster d;
     cmd_vel_subscriber := v;
     _state_thread := _state_thread d; timer := timer d |}.

Definition set_state_thread (v : option RosHandle) (d : Driver) : Driver :=
  {| hostname := hostname d; _latest_state := _latest_state d;
     robot := robot d; lease_keep_alive := lease_keep_alive d;
     estop_keep_alive := estop_keep_alive d;
     robot_state_client := robot_state_client d;
     robot_state_streaming_client := robot_state_streaming_client d;
     command_client := command_client d; tf_broadcaster := tf_broadcaster d;
     cmd_vel_subscriber := cmd_vel_subscriber d;
     _state_thread := v; timer := timer d |}.

Definition set_timer (v : option RosHandle) (d : Driver) : Driver :=
  {| hostname := hostname d; _latest_state := _latest_state d;
     robot := robot d; lease_keep_alive := lease_keep_alive d;
     estop_keep_alive := estop_keep_alive d;
     robot_state_client := robot_state_client d;
     robot_state_streaming_client := robot_state_streaming_client d;
     command_client := command_client d; tf_broadcaster := tf_broadcaster d;
     cmd_vel_subscriber := cmd_vel_subscriber d;
     _state_thread := _state_thread d; timer := v |}.

(** *** Primitive steps *)

Definition Prog := M Env World.

(** Make the call, record it with its answer, return or raise. *)
Definition call (a : action) : Prog bool :=
  fun env w =>
    match respond env (trace w) a with
    | Returns b => (Ok b, emit (Called a (Returns b)) w)
    | Raises e => (Raise e, emit (Called a (Raises e)) w)
    end.

(** [self.get_logger().<level>(t)] *)
Definition log (l : level) (t : text) : Prog unit :=
  modify (emit (Logged l t)).

Definition print (t : text) : Prog unit :=
  modify (emit (Printed t)).

(** [self.x = v] *)
Definition assign (f : Driver -> Driver) : Prog unit :=
  modify (with_self f).

(** [self.x] *)
Definition attr {A} (f : Driver -> A) : Prog A :=
  gets (fun w => f (self w)).

(** [assert b, msg] *)
Definition assert (b : bool) (msg : string) : Prog unit :=
  if b then ret tt else raise (AssertionError msg).

(** [o.method(...)] where [o] may be [None] *)
Definition deref {A} (o : option A) : Prog A :=
  match o with Some a => ret a | None => raise AttributeError end.

(** [time.time()] and [self.get_clock().now().to_msg()] read the clocks of
    the environment. *)
Definition time : Prog float :=
  fun env w => (Ok (time_time env (trace w)), w).

Definition get_clock_now : Prog Z :=
  fun env w => (Ok (clock_now env (trace w)), w).

(** [self.get_parameter(name).get_parameter_value().string_value] after
    [declare_parameter(name, default)] *)
Definition get_parameter (name default : string) : Prog string :=
  ask (fun env => match parameter env name with
                  | Some v => v
                  | None => default
                  end).

(** *** The methods of [SpotROS2Driver] *)

Definition assert_not_estopped_msg : string :=
  "Robot is estopped. Please use an external E-Stop client, such as the estop SDK example, to configure E-Stop.".

Definition __init__ : Prog unit :=
  call (Node_init "spot_driver_node") ;;
  call (declare_parameter "hostname" "192.168.80.3") ;;
  h <- get_parameter "hostname" "192.168.80.3" ;;
  assign (set_hostname h) ;;
  assign (set_latest_state None) ;;
  assign (set_robot None) ;;
  assign (set_lease_keep_alive None) ;;
  assign (set_estop_keep_alive None) ;;
  assign (set_robot_state_client None) ;;
  assign (set_command_client None) ;;
  try_except
    ((* Robot initialization *)
     call (create_standard_sdk "SpotROS2DriverClient") ;;
     call (register_service_client RobotStateStreamingClient) ;;
     h <- attr hostname ;;
     call (create_robot h) ;;
     assign (set_robot (Some (robot_of h))) ;;
     call authenticate ;;
     call wait_for_sync ;;
     stopped <- call is_estopped ;;
     assert (negb stopped) assert_not_estopped_msg ;;
     log INFO (Lit "Successfully authenticated and connected to the robot.") ;;
     (* Create SDK clients *)
     call (ensure_client RobotStateClient) ;;
     assign (set_robot_state_client (Some (client_of RobotStateClient))) ;;
     call (ensure_client RobotStateStreamingClient) ;;
     assign (set_robot_state_streaming_client
               (Some (client_of RobotStateStreamingClient))) ;;
     call (ensure_client RobotCommandClient) ;;
     assign (set_command_client (Some (client_of RobotCommandClient))) ;;
     call (ensure_client LeaseClient) ;;
     call (ensure_client EstopClient) ;;
     log INFO (Lit "Robot clients created.") ;;
     (* Lease management *)
     call (LeaseKeepAlive_init true true) ;;
     assign (set_lease_keep_alive (Some LeaseKeepAlive_obj)) ;;
     log INFO (Lit "Acquired lease.") ;;
     (* Acquire E-Stop *)
     call (EstopEndpoint_init "SpotROS2DriverEStop" 10.0) ;;
     call force_simple_setup ;;
     call EstopKeepAlive_init ;;
     assign (set_estop_keep_alive (Some EstopKeepAlive_obj)) ;;
     log INFO (Lit "Acquired E-Stop.") ;;
     call (time_sleep 2.0) ;;
     (* Power on and Stand Robot *)
     call (power_on 20) ;;
     powered <- call is_powered_on ;;
     assert powered "Robot power on failed." ;;
     log INFO (Lit "Robot powered on.") ;;
     call (blocking_stand 10) ;;
     log INFO (Lit "Robot standing."))
    is_sdk_error
    (fun e =>
       log ERROR (FmtExn "Failed to connect to the robot: " e) ;;
       raise e) ;;
  (* ROS 2 publishers and subscribers *)
  call TransformBroadcaster_init ;;
  assign (set_tf_broadcaster (Some ros_handle)) ;;
  call (create_subscription "cmd_vel" 10) ;;
  assign (set_cmd_vel_subscriber (Some ros_handle)) ;;
  (* Start the background thread for state streaming *)
  assign (set_state_thread (Some ros_handle)) ;;
  call Thread_start ;;
  (* Main Loop *)
  call (create_timer 0.1) ;;
  assign (set_timer (Some ros_handle)).

(** The body of the [for] loop, run under [_state_lock]. *)
Definition cache_robot_state (robot_state : RobotState) : Prog unit :=
  log INFO (FmtType "Received object of type: ") ;;
  assign (set_latest_state (Some robot_state)).

(** [for robot_state in <stream>: ...]: an item that raises ends the loop
    with that exception, the end of the stream ends it normally. *)
Fixpoint for_robot_state (items : list stream_item) : Prog unit :=
  match items with
  | [] => ret tt
  | yields robot_state :: rest =>
      cache_robot_state robot_state ;; for_robot_state rest
  | fails e :: _ => raise e
  end.

Definition _state_streaming_thread : Prog unit :=
  try_except
    (c <- attr robot_state_streaming_client ;;
     _ <- deref c ;;
     items <- ask stream ;;
     for_robot_state items)
    is_Exception
    (fun e => log ERROR (FmtExn "Error in state streaming thread: " e)).

Definition publish_transform (odom_tfrom_body : option SE3Pose) : Prog unit :=
  now <- get_clock_now ;;
  p <- deref odom_tfrom_body ;;
  let t :=
    {| stamp := now;
       frame_id := "odom";
       child_frame_id := "base_link";
       translation := {| vx := vx (position p);
                         vy := vy (position p);
                         vz := vz (position p) |};
       transform_rotation := {| qx := qx (rotation p);
                                qy := qy (rotation p);
                                qz := qz (rotation p);
                                qw := qw (rotation p) |} |} in
  b <- attr tf_broadcaster ;;
  _ <- deref b ;;
  call (sendTransform t) ;;
  ret tt.

(** The [with self._state_lock:] block of [timer_callback]. *)
Definition read_latest_state : Prog (option RobotState) :=
  attr _latest_state.

Definition timer_callback : Prog unit :=
  robot_state <- read_latest_state ;;
  match robot_state with
  | Some rs =>
      publish_transform
        (get_a_tform_b (transforms_snapshot rs)
                       ODOM_FRAME_NAME GRAV_ALIGNED_BODY_FRAME_NAME)
  | None => ret tt
  end.

Definition cmd_vel_callback (msg : Twist) : Prog unit :=
  let x := vx (linear msg) in
  let y := vy (linear msg) in
  let rot := vz (angular msg) in
  let command := synchro_velocity_command x y rot in
  now <- time ;;
  let end_time := (now + 0.5)%float in
  try_except
    (c <- attr command_client ;;
     _ <- deref c ;;
     call (robot_command command end_time) ;;
     log DEBUG (FmtVel x y rot))
    is_command_error
    (fun e => log ERROR (FmtExn "Failed to send velocity command: " e)).

Definition shutdown : Prog unit :=
  (* power off requires lease so we do it before releasing *)
  r <- attr robot ;;
  on <- (if truthy r then call is_powered_on else ret false) ;;
  when on (call (power_off false 20) ;;
           print (Lit "Robot powered off.")) ;;
  (* Release the E-Stop. *)
  e <- attr estop_keep_alive ;;
  when (truthy e) (call EstopKeepAlive_shutdown ;;
                   print (Lit "E-Stop released.")) ;;
  l <- attr lease_keep_alive ;;
  when (truthy l) (call LeaseKeepAlive_shutdown ;;
                   print (Lit "Lease released.")).

(** [rclpy.spin(node)]: the executor runs the callbacks one after the other
    as their triggers come; an exception raised by a callback, or delivered to
    the main thread, leaves [spin].  Iterations of the reader thread fall
    between callbacks (the lock makes the body of an iteration atomic). *)
Fixpoint spin (items : list spin_item) : Prog unit :=
  match items with
  | [] => ret tt
  | on_cmd_vel msg :: rest => cmd_vel_callback msg ;; spin rest
  | on_timer :: rest => timer_callback ;; spin rest
  | on_telemetry robot_state :: rest =>
      cache_robot_state robot_state ;; spin rest
  | interrupt e :: _ => raise e
  end.

Definition main : Prog unit :=
  call rclpy_init ;;
  modify (with_node false) ;;
  try_finally
    (try_except
       (__init__ ;;
        modify (with_node true) ;;
        ok <- call rclpy_ok ;;
        if ok then (items <- ask schedule ;; spin items) else ret tt)
       (fun e => is_KeyboardInterrupt e || is_sdk_error e)
       (fun e =>
          node <- gets spot_driver_node ;;
          if is_KeyboardInterrupt e
          then when node
                 (print (Lit "Shutting down the Robot due to KeyboardInterrupt."))
          else when node
                 (print (FmtExn "Shutting down the Robot due to Spot-SDK error: " e))))
    (node <- gets spot_driver_node ;;
     when node (shutdown ;; call destroy_node ;; ret tt)).

End SpotROS2Driver.

(** ** The nav-goal listener node *)

Module NavGoalListener.

(** geometry_msgs/Pose and PoseStamped *)
Record Pose := { pose_position : Vector3; orientation : Quaternion }.
Record PoseStamped := { header_frame_id : string; pose : Pose }.

(** spot_action/MoveRelativeXY.Goal *)
Record Goal := { x : float; y : float; yaw : float }.

Inductive text :=
| Lit (s : string)
| FmtFrame (prefix : string) (frame : string)
| FmtExn (prefix : string) (e : exn)
| FmtGoal (x y yaw : float).

(** What leaves the node: log lines and the calls into tf2 and into the
    action client, each with its arguments and what came back. *)
Inductive event :=
| Logged (l : level) (t : text)
| lookup_transform (target_frame source_frame : string) (timeout : float)
                   (r : result TransformStamped)
| wait_for_server (timeout_sec : float) (r : result bool)
| send_goal_async (goal_msg : Goal) (r : result unit).

Record Env := {
  tf_lookup : list event -> string -> string -> result TransformStamped;
  do_transform_pose : Pose -> TransformStamped -> result Pose;
  server_ready : list event -> result bool;
  euler_from_quaternion : Quaternion -> float * float * float;
  goal_sent : list event -> Goal -> result unit
}.

Record World := {
  robot_frame : string;
  trace : list event
}.

Definition emit (ev : event) (w : World) : World :=
  {| robot_frame := robot_frame w; trace := trace w ++ [ev] |}.

Definition Prog := M Env World.

Definition log (l : level) (t : text) : Prog unit :=
  modify (emit (Logged l t)).

(** Lift what the environment answered into the monad. *)
Definition answer {A} (r : result A) : Prog A :=
  match r with Ok a => ret a | Raise e => raise e end.

Definition tf_buffer_lookup_transform (target_frame source_frame : string)
           (timeout : float) : Prog TransformStamped :=
  fun env w =>
    let r := tf_lookup env (trace w) target_frame source_frame in
    answer r env (emit (lookup_transform target_frame source_frame timeout r) w).

Definition move_client_wait_for_server (timeout_sec : float) : Prog bool :=
  fun env w =>
    let r := server_ready env (trace w) in
    answer r env (emit (wait_for_server timeout_sec r) w).

Definition move_client_send_goal_async (goal_msg : Goal) : Prog unit :=
  fun env w =>
    let r := goal_sent env (trace w) goal_msg in
    answer r env (emit (send_goal_async goal_msg r) w).

Definition tf2_do_transform_pose (p : Pose) (t : TransformStamped)
  : Prog Pose :=
  fun env w => answer (do_transform_pose env p t) env w.

Definition goal_callback (msg : PoseStamped) : Prog unit :=
  log INFO (FmtFrame "Received goal in frame: " (header_frame_id msg)) ;;
  r <- try_except
         (target <- gets robot_frame ;;
          transform <- tf_buffer_lookup_transform
                         target (header_frame_id msg) 1.0 ;;
          transformed_goal <- tf2_do_transform_pose (pose msg) transform ;;
          ret (Some transformed_goal))
         is_Exception
         (fun e => log WARN (FmtExn "Transform error: " e) ;; ret None) ;;
  match r with
  | None => ret tt                                    (* return *)
  | Some transformed_goal =>
      ready <- move_client_wait_for_server 2.0 ;;
      if negb ready
      then log WARN (Lit "MoveRelativeXY action server not available!")
      else
        let q := orientation transformed_goal in
        e3 <- ask (fun env => euler_from_quaternion env q) ;;
        let goal_msg :=
          {| x := vx (pose_position transformed_goal);
             y := vy (pose_position transformed_goal);
             yaw := snd e3 |} in
        log INFO (FmtGoal (x goal_msg) (y goal_msg) (yaw goal_msg)) ;;
        move_client_send_goal_async goal_msg
  end.

End NavGoalListener.

(** ** Vocabulary of the properties of the driver *)

Module DriverSpec.
Import SpotROS2Driver.

(** The events added to the trace between two worlds. *)
Definition since (w w' : World) : list event :=
  skipn (List.length (trace w)) (trace w').

(** The calls of a trace, without the log lines. *)
Fixpoint calls (tr : list event) : list (action * response) :=
  match tr with
  | [] => []
  | Called a r :: rest => (a, r) :: calls rest
  | _ :: rest => calls rest
  end.

Definition returned (c : action * response) : bool :=
  match c with
  | (_, Returns _) => true
  | (_, Raises _) => false
  end.

(** A call of the startup sequence succeeded: it returned, and the two
    assertions on its answer hold. *)
Definition step_succeeded (c : action * response) : bool :=
  match c with
  | (_, Raises _) => false
  | (is_estopped, Returns b) => negb b
  | (is_powered_on, Returns b) => b
  | (_, Returns _) => true
  end.

Fixpoint all_but_last (p : action * response -> bool)
         (cs : list (action * response)) : bool :=
  match cs with
  | [] => true
  | [_] => true
  | c :: rest => p c && all_but_last p rest
  end.

Definition last_succeeded (cs : list (action * response)) : bool :=
  match rev cs with
  | [] => true
  | c :: _ => step_succeeded c
  end.

Definition configured_hostname (env : Env) : string :=
  match parameter env "hostname" with
  | Some v => v
  | None => "192.168.80.3"
  end.

(** The calls of the [try] block of the constructor (and the two calls
    before it), and the calls after it, in program order. *)
Definition startup_calls (h : string) : list action :=
  [ Node_init "spot_driver_node";
    declare_parameter "hostname" "192.168.80.3";
    create_standard_sdk "SpotROS2DriverClient";
    register_service_client RobotStateStreamingClient;
    create_robot h;
    authenticate;
    wait_for_sync;
    is_estopped;
    ensure_client RobotStateClient;
    ensure_client RobotStateStreamingClient;
    ensure_client RobotCommandClient;
    ensure_client LeaseClient;
    ensure_client EstopClient;
    LeaseKeepAlive_init true true;
    EstopEndpoint_init "SpotROS2DriverEStop" 10.0;
    force_simple_setup;
    EstopKeepAlive_init;
    time_sleep 2.0;
    power_on 20;
    is_powered_on;
    blocking_stand 10 ].

Definition launch_calls : list action :=
  [ TransformBroadcaster_init;
    create_subscription "cmd_vel" 10;
    Thread_start;
    create_timer 0.1 ].

(** The steps of the startup sequence, then the two concurrent parts. *)
Inductive step :=
| OpenSession | TimeSync | EstopCheck | AcquireLease | RegisterEstop
| PowerOn | Stand | StartDispatcher | StartReader.

(** The call that begins a step. *)
Definition begins (a : action) : option step :=
  match a with
  | create_robot _ => Some OpenSession
  | wait_for_sync => Some TimeSync
  | is_estopped => Some EstopCheck
  | LeaseKeepAlive_init _ _ => Some AcquireLease
  | EstopEndpoint_init _ _ => Some RegisterEstop
  | power_on _ => Some PowerOn
  | blocking_stand _ => Some Stand
  | create_subscription _ _ => Some StartDispatcher
  | Thread_start => Some StartReader
  | _ => None
  end.

(** The call whose success completes a step. *)
Definition completes (c : action * response) : option step :=
  match c with
  | (authenticate, Returns _) => Some OpenSession
  | (wait_for_sync, Returns _) => Some TimeSync
  | (is_estopped, Returns false) => Some EstopCheck
  | (LeaseKeepAlive_init _ _, Returns _) => Some AcquireLease
  | (EstopKeepAlive_init, Returns _) => Some RegisterEstop
  | (is_powered_on, Returns true) => Some PowerOn
  | (blocking_stand _, Returns _) => Some Stand
  | _ => None
  end.

Fixpoint pick {A B} (f : A -> option B) (l : list A) : list B :=
  match l with
  | [] => []
  | a :: rest =>
      match f a with
      | Some b => b :: pick f rest
      | None => pick f rest
      end
  end.

Definition begun (cs : list (action * response)) : list step :=
  pick begins (map fst cs).

Definition completed (cs : list (action * response)) : list step :=
  pick completes cs.

Definition startup_order : list step :=
  [ OpenSession; TimeSync; EstopCheck; AcquireLease; RegisterEstop;
    PowerOn; Stand ].

Definition concurrent_parts : list step := [ StartDispatcher; StartReader ].

Definition rank (s : step) : nat :=
  match s with
  | OpenSession => 0 | TimeSync => 1 | EstopCheck => 2 | AcquireLease => 3
  | RegisterEstop => 4 | PowerOn => 5 | Stand => 6
  | StartDispatcher | StartReader => 7
  end.

(** The startup steps that come before a step in the order. *)
Definition preceding (s : step) : list step := firstn (rank s) startup_order.

Fixpoint same_steps (l k : list step) : bool :=
  match l, k with
  | [], [] => true
  | a :: l', b :: k' => Nat.eqb (rank a) (rank b) && same_steps l' k'
  | _, _ => false
  end.

(** Whenever a call begins a step, the steps completed so far ([done]) are
    exactly the ones that precede it. *)
Fixpoint gated (done : list step) (cs : list (action * response)) : bool :=
  match cs with
  | [] => true
  | c :: rest =>
      match begins (fst c) with
      | Some s => same_steps done (preceding s)
      | None => true
      end
      && gated (done ++ pick completes [c]) rest
  end.

(** The exclusive resources, and the calls that acquire and release them. *)
Inductive resource := Session | Lease | Estop | Power.

Definition acquires (c : action * response) : option resource :=
  match c with
  | (authenticate, Returns _) => Some Session
  | (LeaseKeepAlive_init _ _, Returns _) => Some Lease
  | (EstopKeepAlive_init, Returns _) => Some Estop
  | (power_on _, Returns _) => Some Power
  | _ => None
  end.

Definition releases (c : action * response) : option resource :=
  match fst c with
  | power_off _ _ => Some Power
  | EstopKeepAlive_shutdown => Some Estop
  | LeaseKeepAlive_shutdown => Some Lease
  | _ => None
  end.

Definition acquired (cs : list (action * response)) : list resource :=
  pick acquires cs.

Definition released (cs : list (action * response)) : list resource :=
  pick releases cs.

Definition resource_eqb (a b : resource) : bool :=
  match a, b with
  | Session, Session | Lease, Lease | Estop, Estop | Power, Power => true
  | _, _ => false
  end.

Definition times (r : resource) (l : list resource) : nat :=
  List.length (filter (resource_eqb r) l).

(** The node object a successful constructor leaves behind. *)
Definition started_driver (h : string) : Driver :=
  {| hostname := h;
     _latest_state := None;
     robot := Some (robot_of h);
     lease_keep_alive := Some LeaseKeepAlive_obj;
     estop_keep_alive := Some EstopKeepAlive_obj;
     robot_state_client := Some (client_of RobotStateClient);
     robot_state_streaming_client := Some (client_of RobotStateStreamingClient);
     command_client := Some (client_of RobotCommandClient);
     tf_broadcaster := Some ros_handle;
     cmd_vel_subscriber := Some ros_handle;
     _state_thread := Some ros_handle;
     timer := Some ros_handle |}.

(** The part of [main] that runs before the constructor. *)
Definition main_prelude : Prog unit :=
  call rclpy_init ;;
  modify (with_node false).

(** The motion commands forwarded to the Session. *)
Definition forwards (c : action * response) : option (RobotCommand * float) :=
  match fst c with
  | robot_command command end_time_secs => Some (command, end_time_secs)
  | _ => None
  end.

Definition forwarded (tr : list event) : list (RobotCommand * float) :=
  pick forwards (calls tr).

Definition is_warning (ev : event) : bool :=
  match ev with
  | Logged WARN _ => true
  | _ => false
  end.

Definition is_log (l : level) (ev : event) : bool :=
  match ev, l with
  | Logged DEBUG _, DEBUG | Logged INFO _, INFO
  | Logged WARN _, WARN | Logged ERROR _, ERROR => true
  | _, _ => false
  end.

(** What the robot would answer if asked for its power state now. *)
Definition power_is_on (env : Env) (tr : list event) : bool :=
  match respond env tr is_powered_on with
  | Returns b => b
  | Raises _ => false
  end.

Definition is_logged (ev : event) : bool :=
  match ev with
  | Logged _ _ => true
  | _ => false
  end.

(** The releases [shutdown] makes when none of its calls raises. *)
Definition due_releases (env : Env) (w : World) : list resource :=
  (if truthy (robot (self w)) && power_is_on env (trace w)
   then [Power] else [])
  ++ (if truthy (estop_keep_alive (self w)) then [Estop] else [])
  ++ (if truthy (lease_keep_alive (self w)) then [Lease] else []).

Fixpoint in_release_order (l : list resource) (order : list resource) : bool :=
  match l, order with
  | [], _ => true
  | _ :: _, [] => false
  | a :: l', b :: order' =>
      if resource_eqb a b then in_release_order l' order'
      else in_release_order l order'
  end.

(** The trace ends with a call that raised [e]. *)
Definition ends_with_raise (e : exn) (tr : list event) : Prop :=
  match rev tr with
  | Called _ (Raises e') :: _ => e' = e
  | _ => False
  end.

Definition received : event :=
  Logged INFO (FmtType "Received object of type: ").

(** The executor runs something other than an iteration of the reader. *)
Definition no_write (it : spin_item) : bool :=
  match it with
  | on_telemetry _ => false
  | _ => true
  end.

(** The world after the reader thread cached the records [rs] one by one. *)
Definition cached (env : Env) (rs : list RobotState) (w : World) : World :=
  fold_left (fun w r => snd (cache_robot_state r env w)) rs w.

(** The transforms handed to the broadcaster. *)
Definition publishes (c : action * response) : option TransformStamped :=
  match fst c with
  | sendTransform t => Some t
  | _ => None
  end.

Definition published (tr : list event) : list TransformStamped :=
  pick publishes (calls tr).

(** *** Concrete environments and inputs *)

(** Whether the robot is powered after the calls of a history: the last
    power call that returned decides. *)
Fixpoint powered_after (hist : list event) (p : bool) : bool :=
  match hist with
  | [] => p
  | Called (power_on _) (Returns _) :: rest => powered_after rest true
  | Called (power_off _ _) (Returns _) :: rest => powered_after rest false
  | _ :: rest => powered_after rest p
  end.

(** A robot on which every call returns, which is not E-Stopped, and which
    reports the power state its history gives it. *)
Definition healthy (hist : list event) (a : action) : response :=
  match a with
  | is_estopped => Returns false
  | is_powered_on => Returns (powered_after hist false)
  | _ => Returns true
  end.

Definition environment (f : list event -> action -> response)
           (items : list stream_item) (sched : list spin_item) : Env :=
  {| respond := f;
     parameter := fun _ => None;
     time_time := fun _ => 100%float;
     clock_now := fun _ => 0%Z;
     stream := items;
     schedule := sched |}.

Definition healthy_robot : Env := environment healthy [] [].

(** E-Stop registration is rejected. *)
Definition estop_setup_fails : Env :=
  environment
    (fun hist a =>
       match a with
       | force_simple_setup => Raises ResponseError
       | _ => healthy hist a
       end) [] [].

Definition is_stand (ev : event) : bool :=
  match ev with
  | Called (blocking_stand _) _ => true
  | _ => false
  end.

(** The robot starts up, then loses power once it stands: from then on it
    reports that it is not powered on and rejects motion commands. *)
Definition loses_power : Env :=
  environment
    (fun hist a =>
       if existsb is_stand hist
       then match a with
            | is_powered_on => Returns false
            | robot_command _ _ => Raises ResponseError
            | _ => healthy hist a
            end
       else healthy hist a) [] [].

(** The robot is powered but cannot be reached for the power-off. *)
Definition power_off_fails : Env :=
  environment
    (fun hist a =>
       match a with
       | power_off _ _ => Raises RpcError
       | _ => healthy hist a
       end) [] [].

(** [main] on the robot that rejects the E-Stop registration: the world
    when the constructor is entered and the world when it raises. *)
Definition before_failed_init : World :=
  snd (main_prelude estop_setup_fails boot).

Definition after_failed_init : World :=
  snd (__init__ estop_setup_fails before_failed_init).

(** The world after the construction of the node on a given robot. *)
Definition started_on (env : Env) : World := snd (__init__ env boot).

Definition started : World := started_on healthy_robot.

(** Two calls of [shutdown] in a row on the healthy robot. *)
Definition after_shutdown : World := snd (shutdown healthy_robot started).

Definition after_second_shutdown : World :=
  snd (shutdown healthy_robot after_shutdown).

Definition pose_at (px : float) : SE3Pose :=
  {| position := {| vx := px; vy := 0; vz := 0 |};
     rotation := {| qx := 0; qy := 0; qz := 0; qw := 1 |} |}.

Definition state_at (px : float) : RobotState :=
  {| transforms_snapshot := fun _ _ => Some (pose_at px) |}.

(** A stream that fails once between two records. *)
Definition glitchy_stream : Env :=
  environment healthy
    [ yields (state_at 1); fails RpcError; yields (state_at 2) ] [].

Definition intent : Twist :=
  {| linear := {| vx := 0.3; vy := 0.0; vz := 0 |};
     angular := {| vx := 0; vy := 0; vz := 0.1 |} |}.

(** What the executor happens to run before the intent of interest. *)
Definition busy_schedule : list spin_item :=
  [ on_timer; on_telemetry (state_at 1); on_cmd_vel intent; on_timer ].

(** *** Further vocabulary *)

Definition has (r : resource) (l : list resource) : bool :=
  existsb (resource_eqb r) l.

(** The constructor reached its [try] block, and left it normally. *)
Definition entered_try (cs : list (action * response)) : bool :=
  existsb (fun c => match fst c with
                    | create_standard_sdk _ => true
                    | _ => false
                    end) cs.

Definition left_try (cs : list (action * response)) : bool :=
  existsb (fun c => match fst c with
                    | TransformBroadcaster_init => true
                    | _ => false
                    end) cs.

(** The robot answered that it is E-Stopped; that it is not powered on. *)
Definition estop_reported (cs : list (action * response)) : bool :=
  existsb (fun c => match c with
                    | (is_estopped, Returns true) => true
                    | _ => false
                    end) cs.

Definition power_unconfirmed (cs : list (action * response)) : bool :=
  existsb (fun c => match c with
                    | (is_powered_on, Returns false) => true
                    | _ => false
                    end) cs.

Definition create_robot_returned (cs : list (action * response)) : bool :=
  existsb (fun c => match c with
                    | (create_robot _, Returns _) => true
                    | _ => false
                    end) cs.

Definition connect_failure (e : exn) : event :=
  Logged ERROR (FmtExn "Failed to connect to the robot: " e).

(** The part of [main] between the constructor and the handlers, and the
    body of its [finally] clause for a bound node. *)
Definition main_loop : Prog unit :=
  ok <- call rclpy_ok ;;
  if ok then (items <- ask schedule ;; spin items) else ret tt.

Definition teardown : Prog unit :=
  shutdown ;; call destroy_node ;; ret tt.

(** The world after the handlers of [main] ran for what left [main_loop]
    (the node variable is bound). *)
Definition farewell (r : result unit) (w : World) : World :=
  match r with
  | Ok _ => w
  | Raise e =>
      if is_KeyboardInterrupt e
      then emit (Printed (Lit "Shutting down the Robot due to KeyboardInterrupt.")) w
      else if is_sdk_error e
           then emit (Printed (FmtExn "Shutting down the Robot due to Spot-SDK error: " e)) w
           else w
  end.

(** What [main] returns when its [finally] clause returns normally. *)
Definition swallowed (r : result unit) : result unit :=
  match r with
  | Ok _ => Ok tt
  | Raise e => if is_KeyboardInterrupt e || is_sdk_error e then Ok tt else Raise e
  end.

(** The trace only grew between two worlds. *)
Definition grows (w w' : World) : Prop :=
  trace w' = trace w ++ since w w'.

(** The velocity intents an executor delivers, in order, and the command
    the dispatcher builds from one. *)
Fixpoint intents (items : list spin_item) : list Twist :=
  match items with
  | [] => []
  | on_cmd_vel msg :: rest => msg :: intents rest
  | _ :: rest => intents rest
  end.

Definition command_of (msg : Twist) : RobotCommand :=
  {| v_x := vx (linear msg); v_y := vy (linear msg); v_rot := vz (angular msg) |}.

(** The transform [publish_transform] builds from a pose. *)
Definition odom_to_base_link (now : Z) (p : SE3Pose) : TransformStamped :=
  {| stamp := now; frame_id := "odom"; child_frame_id := "base_link";
     translation := position p; transform_rotation := rotation p |}.

(** The records a stream yields before its first failure. *)
Fixpoint read_before_failure (items : list stream_item) : list RobotState :=
  match items with
  | yields r :: rest => r :: read_before_failure rest
  | _ => []
  end.

(** The first failure of a stream, if any. *)
Fixpoint first_failure (items : list stream_item) : option exn :=
  match items with
  | [] => None
  | yields _ :: rest => first_failure rest
  | fails e :: _ => Some e
  end.

(** *** Further environments *)

(** The robot is E-Stopped by somebody else. *)
Definition estopped_robot : Env :=
  environment
    (fun hist a =>
       match a with
       | is_estopped => Returns true
       | _ => healthy hist a
       end) [] [].

(** The power-on command returns but the robot stays off. *)
Definition stays_off : Env :=
  environment
    (fun hist a =>
       match a with
       | is_powered_on => Returns false
       | _ => healthy hist a
       end) [] [].

(** A stream of two records that then ends; one that is interrupted. *)
Definition steady_stream : Env :=
  environment healthy [ yields (state_at 1); yields (state_at 2) ] [].

Definition interrupted_stream : Env :=
  environment healthy [ yields (state_at 1); fails KeyboardInterrupt ] [].

(** A record whose frame tree does not connect odom to the body. *)
Definition state_without_frames : RobotState :=
  {| transforms_snapshot := fun _ _ => None |}.

(** The operator presses Ctrl-C after one intent. *)
Definition interrupted : Env :=
  environment healthy []
    [ on_telemetry (state_at 1); on_cmd_vel intent; on_timer;
      interrupt KeyboardInterrupt ].

Definition idle_schedule : list spin_item :=
  [ on_timer; on_cmd_vel intent; on_timer ].

(** The started node once the reader cached a record. *)
Definition tracking : World :=
  snd (cache_robot_state (state_at 1) healthy_robot started).

Definition lost_frames : World :=
  snd (cache_robot_state state_without_frames healthy_robot started).

(** [main] on a given robot: the world when the constructor is entered, and
    the world when it returns. *)
Definition entering (env : Env) : World := snd (main_prelude env boot).

Definition constructed (env : Env) : World :=
  snd (__init__ env (entering env)).

End DriverSpec.

(** ** Vocabulary of the properties of the nav-goal listener *)

Module NavSpec.
Import NavGoalListener.

Definition since (w w' : World) : list event :=
  skipn (List.length (trace w)) (trace w').

Definition is_goal_sent (ev : event) : bool :=
  match ev with
  | send_goal_async _ _ => true
  | _ => false
  end.

Definition is_warning (ev : event) : bool :=
  match ev with
  | Logged WARN _ => true
  | _ => false
  end.

(** The history at the moment [goal_callback] looks the transform up. *)
Definition at_lookup (w : World) (msg : PoseStamped) : list event :=
  trace w ++ [Logged INFO (FmtFrame "Received goal in frame: "
                                    (header_frame_id msg))].

(** A tf tree in which the frame of the goal is unknown. *)
Definition no_transform : Env :=
  {| tf_lookup := fun _ _ _ => Raise TransformException;
     do_transform_pose := fun p _ => Ok p;
     server_ready := fun _ => Ok true;
     euler_from_quaternion := fun _ => (0%float, 0%float, 0%float);
     goal_sent := fun _ _ => Ok tt |}.

Definition listener : World := {| robot_frame := "base_link"; trace := [] |}.

Definition goal_in_map : PoseStamped :=
  {| header_frame_id := "map";
     pose := {| pose_position := {| vx := 1; vy := 2; vz := 0 |};
                orientation := {| qx := 0; qy := 0; qz := 0; qw := 1 |} |} |}.

(** *** Further vocabulary *)

Definition sends (ev : event) : option Goal :=
  match ev with
  | send_goal_async g _ => Some g
  | _ => None
  end.

Fixpoint goals_sent (tr : list event) : list Goal :=
  match tr with
  | [] => []
  | ev :: rest =>
      match sends ev with
      | Some g => g :: goals_sent rest
      | None => goals_sent rest
      end
  end.

Definition lookup_succeeded (ev : event) : bool :=
  match ev with
  | lookup_transform _ _ _ (Ok _) => true
  | _ => false
  end.

Definition server_was_ready (ev : event) : bool :=
  match ev with
  | wait_for_server _ (Ok true) => true
  | _ => false
  end.

Definition server_was_down (ev : event) : bool :=
  match ev with
  | wait_for_server _ (Ok false) => true
  | _ => false
  end.

Definition server_unavailable : event :=
  Logged WARN (Lit "MoveRelativeXY action server not available!").

(** The goal the listener builds from a pose in the robot frame. *)
Definition goal_of (env : Env) (p : Pose) : Goal :=
  {| x := vx (pose_position p);
     y := vy (pose_position p);
     yaw := snd (euler_from_quaternion env (orientation p)) |}.

Definition identity_transform : TransformStamped :=
  {| stamp := 0%Z; frame_id := "base_link"; child_frame_id := "map";
     translation := {| vx := 0; vy := 0; vz := 0 |};
     transform_rotation := {| qx := 0; qy := 0; qz := 0; qw := 1 |} |}.

(** The frames are known and the action server answers. *)
Definition all_ready : Env :=
  {| tf_lookup := fun _ _ _ => Ok identity_transform;
     do_transform_pose := fun p _ => Ok p;
     server_ready := fun _ => Ok true;
     euler_from_quaternion := fun _ => (0%float, 0%float, 0.5%float);
     goal_sent := fun _ _ => Ok tt |}.

(** The frames are known but the pose cannot be transformed. *)
Definition transform_fails : Env :=
  {| tf_lookup := fun _ _ _ => Ok identity_transform;
     do_transform_pose := fun _ _ => Raise RuntimeError;
     server_ready := fun _ => Ok true;
     euler_from_quaternion := fun _ => (0%float, 0%float, 0%float);
     goal_sent := fun _ _ => Ok tt |}.

(** The action server does not come up within the timeout. *)
Definition server_down : Env :=
  {| tf_lookup := fun _ _ _ => Ok identity_transform;
     do_transform_pose := fun p _ => Ok p;
     server_ready := fun _ => Ok false;
     euler_from_quaternion := fun _ => (0%float, 0%float, 0%float);
     goal_sent := fun _ _ => Ok tt |}.

End NavSpec.

(** ** Proofs *)

Lemma skipn_length_app {A} (l k : list A) :
  skipn (List.length l) (l ++ k) = k.
Proof. induction l; simpl; auto. Qed.

(** ** The driver: proofs *)

Module DriverTheory.
Import SpotROS2Driver DriverSpec.

Lemma since_refl (w : World) : since w w = [].
Proof.
  unfold since. rewrite <- (app_nil_r (trace w)) at 2.
  apply skipn_length_app.
Qed.

(** Symbolic execution: unfold the monad, split on what the environment
    answers to the next call, decide the tests that depend on an answer. *)
Ltac unfold_prog H :=
  cbv [__init__ shutdown cmd_vel_callback timer_callback publish_transform
       read_latest_state main main_prelude
       bind call ret raise gets modify ask when try_except try_finally
       assign attr assert deref log print get_parameter time get_clock_now] in H.

Ltac split_calls H :=
  repeat match type of H with
  | context [respond ?env ?tr ?a] =>
      let R := fresh "R" in
      destruct (respond env tr a) as [?b|?e] eqn:R; cbn [negb] in H
  | context [if negb ?b then _ else _] =>
      is_var b; destruct b; cbn [negb] in H
  | context [if ?b then _ else _] => is_var b; destruct b; cbn [negb] in H
  | context [if ?f ?x then _ else _] =>
      is_var x; destruct (f x) eqn:?; cbn [negb] in H
  end.

Ltac exec H := unfold_prog H; split_calls H; inversion H; subst; clear H.

Ltac norm_trace :=
  unfold since;
  cbn [trace emit with_self with_node self spot_driver_node fst snd];
  rewrite <- ?app_assoc; cbn [app]; rewrite ?skipn_length_app, ?skipn_all.

(** Everything the constructor can do, whatever the environment answers. *)
Lemma init_outcome (env : Env) (w : World) (r : result unit) (w' : World) :
  __init__ env w = (r, w') ->
  let cs := calls (since w w') in
  (exists rest,
     startup_calls (configured_hostname env) ++ launch_calls
     = map fst cs ++ rest) /\
  all_but_last step_succeeded cs = true /\
  released cs = [] /\
  spot_driver_node w' = spot_driver_node w /\
  gated [] cs = true /\
  match r with
  | Ok _ =>
      map fst cs = startup_calls (configured_hostname env) ++ launch_calls /\
      forallb step_succeeded cs = true /\
      completed cs = startup_order /\
      self w' = started_driver (configured_hostname env)
  | Raise e =>
      last_succeeded cs = false
  end.
Proof.
  intros H. exec H.
  all: cbv zeta; norm_trace; clear.
  all: repeat split; try reflexivity; try (eexists; cbn; reflexivity);
    try (cbn; intros; discriminate).
Qed.


Lemma pick_app {A B} (f : A -> option B) (l k : list A) :
  pick f (l ++ k) = pick f l ++ pick f k.
Proof.
  induction l as [|a l IH]; simpl; auto.
  destruct (f a); simpl; now rewrite IH.
Qed.

(** C7: the constructor performs the startup steps in the fixed order
    (session, time-sync, E-Stop check, lease, E-Stop registration, power-on,
    stand, then the command dispatcher and the streaming reader): its calls are
    an initial part of the fixed sequence of calls, a call is made only if every
    call before it succeeded, and a step is begun only when exactly the steps
    that precede it are complete.  It stops early only at a call that failed;
    otherwise it returns having made every call, all of them successful, with
    all nine steps begun and the seven startup steps complete. *)
Theorem C7_startup_steps_in_order_and_gated (env : Env) (w : World) :
  let r := fst (__init__ env w) in
  let cs := calls (since w (snd (__init__ env w))) in
  gated [] cs = true /\
  (exists rest, startup_order ++ concurrent_parts = begun cs ++ rest) /\
  (exists rest,
     startup_calls (configured_hostname env) ++ launch_calls
     = map fst cs ++ rest) /\
  all_but_last step_succeeded cs = true /\
  (r = Ok tt ->
   begun cs = startup_order ++ concurrent_parts /\
   completed cs = startup_order) /\
  match r with
  | Ok _ =>
      map fst cs = startup_calls (configured_hostname env) ++ launch_calls /\
      forallb step_succeeded cs = true
  | Raise e => last_succeeded cs = false
  end.
Proof.
  destruct (__init__ env w) as [r w'] eqn:H. cbn [fst snd].
  destruct (init_outcome env w r w' H) as (Hpre & Hall & _ & _ & Hgate & Hr).
  split; [exact Hgate|].
  split; [|split; [exact Hpre|split; [exact Hall|split]]].
  - destruct Hpre as [rest Hrest].
    exists (pick begins rest). unfold begun.
    rewrite <- pick_app, <- Hrest. reflexivity.
  - intros ->. destruct Hr as (Hmap & Hok & Hdone & _). split.
    + unfold begun. rewrite Hmap. reflexivity.
    + exact Hdone.
  - destruct r as [[]|e]; [|exact Hr].
    destruct Hr as (Hmap & Hok & _). now split.
Qed.

Lemma C7_healthy_startup_witness :
  fst (__init__ healthy_robot boot) = Ok tt /\
  begun (calls (since boot (snd (__init__ healthy_robot boot))))
  = startup_order ++ concurrent_parts /\
  completed (calls (since boot (snd (__init__ healthy_robot boot))))
  = startup_order.
Proof.
  assert (E : fst (__init__ healthy_robot boot) = Ok tt)
    by (vm_compute; reflexivity).
  split; [exact E|].
  exact (proj1 (proj2 (proj2 (proj2 (proj2
           (C7_startup_steps_in_order_and_gated healthy_robot boot))))) E).
Defined.





(** *** The command dispatcher *)

(** What [cmd_vel_callback] does, by what the Session answers. *)
Lemma cmd_vel_run (env : Env) (w : World) (msg : Twist) (c : Client) :
  command_client (self w) = Some c ->
  let a := robot_command
             (synchro_velocity_command (vx (linear msg)) (vy (linear msg))
                                       (vz (angular msg)))
             (time_time env (trace w) + 0.5)%float in
  cmd_vel_callback msg env w =
  match respond env (trace w) a with
  | Returns b =>
      (Ok tt,
       emit (Logged DEBUG (FmtVel (vx (linear msg)) (vy (linear msg))
                                  (vz (angular msg))))
            (emit (Called a (Returns b)) w))
  | Raises e =>
      if is_command_error e
      then (Ok tt,
            emit (Logged ERROR (FmtExn "Failed to send velocity command: " e))
                 (emit (Called a (Raises e)) w))
      else (Raise e, emit (Called a (Raises e)) w)
  end.
Proof.
  intros Hc. cbv zeta.
  cbv [cmd_vel_callback bind call ret raise gets modify try_except attr deref
       log time].
  rewrite Hc.
  destruct (respond env (trace w) _) as [b|e]; [reflexivity|].
  destruct (is_command_error e); reflexivity.
Qed.

Lemma forwarded_since_cmd_vel (env : Env) (w : World) (msg : Twist) (c : Client) :
  command_client (self w) = Some c ->
  forwarded (since w (snd (cmd_vel_callback msg env w)))
  = [ ({| v_x := vx (linear msg); v_y := vy (linear msg);
          v_rot := vz (angular msg) |},
       (time_time env (trace w) + 0.5)%float) ].
Proof.
  intros Hc. rewrite (cmd_vel_run env w msg c Hc). cbv zeta.
  destruct (respond env (trace w) _) as [b|e];
    [|destruct (is_command_error e)]; norm_trace; reflexivity.
Qed.

Lemma cmd_vel_keeps_self (env : Env) (w : World) (msg : Twist) :
  self (snd (cmd_vel_callback msg env w)) = self w.
Proof.
  destruct (cmd_vel_callback msg env w) as [r w'] eqn:H.
  cbv [cmd_vel_callback bind call ret raise gets modify try_except attr deref
       log time] in H.
  destruct (command_client (self w)); cbn in H.
  - split_calls H; inversion H; reflexivity.
  - inversion H; reflexivity.
Qed.

Lemma timer_keeps_self (env : Env) (w : World) :
  self (snd (timer_callback env w)) = self w.
Proof.
  destruct (timer_callback env w) as [r w'] eqn:H.
  unfold_prog H.
  destruct (_latest_state (self w)) as [rs|]; [|inversion H; reflexivity].
  destruct (get_a_tform_b _ _ _); [|inversion H; reflexivity].
  destruct (tf_broadcaster (self w)); [|inversion H; reflexivity].
  split_calls H; inversion H; reflexivity.
Qed.

Lemma spin_keeps_command_client (items : list spin_item) (env : Env) :
  forall w, command_client (self (snd (spin items env w)))
            = command_client (self w).
Proof.
  induction items as [|it items IH]; intros w; [reflexivity|].
  destruct it as [msg| |rs|e]; cbn [spin]; unfold bind.
  - pose proof (cmd_vel_keeps_self env w msg) as K.
    destruct (cmd_vel_callback msg env w) as [[[]|e] w1]; cbn [snd] in *.
    + rewrite IH, K. reflexivity.
    + now rewrite K.
  - pose proof (timer_keeps_self env w) as K.
    destruct (timer_callback env w) as [[[]|e] w1]; cbn [snd] in *.
    + rewrite IH, K. reflexivity.
    + now rewrite K.
  - cbv [cache_robot_state bind log modify assign]. rewrite IH. reflexivity.
  - reflexivity.
Qed.

Lemma spin_keeps_self_without_writes (items : list spin_item) (env : Env) :
  forallb no_write items = true ->
  forall w, self (snd (spin items env w)) = self w.
Proof.
  induction items as [|it items IH]; intros H w; [reflexivity|].
  cbn [forallb] in H. apply andb_prop in H as [Hit H].
  destruct it as [msg| |rs|e]; cbn [spin]; unfold bind;
    try discriminate Hit.
  - pose proof (cmd_vel_keeps_self env w msg) as K.
    destruct (cmd_vel_callback msg env w) as [[[]|e] w1]; cbn [snd] in *.
    + now rewrite IH.
    + exact K.
  - pose proof (timer_keeps_self env w) as K.
    destruct (timer_callback env w) as [[[]|e] w1]; cbn [snd] in *.
    + now rewrite IH.
    + exact K.
  - reflexivity.
Qed.

(** C6: after a successful startup, whatever the executor has run since,
    an incoming velocity intent makes the dispatcher issue exactly one motion
    command, with the three rates of the intent unchanged and an end time of
    the time of issue plus 0.5 s. *)
Theorem C6_one_command_per_intent
        (env : Env) (w0 w1 w2 : World) (items : list spin_item) (msg : Twist) :
  __init__ env w0 = (Ok tt, w1) ->
  spin items env w1 = (Ok tt, w2) ->
  forwarded (since w2 (snd (cmd_vel_callback msg env w2)))
  = [ ({| v_x := vx (linear msg); v_y := vy (linear msg);
          v_rot := vz (angular msg) |},
       (time_time env (trace w2) + 0.5)%float) ].
Proof.
  intros Hinit Hspin.
  destruct (init_outcome env w0 _ w1 Hinit) as (_ & _ & _ & _ & _ & _ & _ & _ & Hself).
  apply forwarded_since_cmd_vel with (c := client_of RobotCommandClient).
  pose proof (spin_keeps_command_client items env w1) as K.
  rewrite Hspin in K. cbn [snd] in K. rewrite K, Hself. reflexivity.
Qed.

Lemma C6_one_command_witness :
  __init__ healthy_robot boot = (Ok tt, started) /\
  spin busy_schedule healthy_robot started
  = (Ok tt, snd (spin busy_schedule healthy_robot started)) /\
  forwarded
    (since (snd (spin busy_schedule healthy_robot started))
           (snd (cmd_vel_callback intent healthy_robot
                   (snd (spin busy_schedule healthy_robot started)))))
  = [ ({| v_x := 0.3; v_y := 0.0; v_rot := 0.1 |}, 100.5%float) ].
Proof.
  split; [vm_compute; reflexivity|].
  split; [vm_compute; reflexivity|].
  apply (C6_one_command_per_intent healthy_robot boot started _ busy_schedule
                                   intent); vm_compute; reflexivity.
Defined.

(** C2, as stated, fails: the robot has lost power after startup, a Twist
    arrives, and the dispatcher still forwards a motion command to the
    Session; no warning is logged. *)
Lemma C2_command_forwarded_while_unpowered :
  __init__ loses_power boot = (Ok tt, started_on loses_power) /\
  power_is_on loses_power (trace (started_on loses_power)) = false /\
  fst (cmd_vel_callback intent loses_power (started_on loses_power)) = Ok tt /\
  forwarded (since (started_on loses_power)
                   (snd (cmd_vel_callback intent loses_power
                           (started_on loses_power))))
  = [ ({| v_x := 0.3; v_y := 0.0; v_rot := 0.1 |}, 100.5%float) ] /\
  filter is_warning
         (since (started_on loses_power)
                (snd (cmd_vel_callback intent loses_power
                        (started_on loses_power))))
  = [].
Proof.
  split; [vm_compute; reflexivity|].
  split; [vm_compute; reflexivity|].
  split; [vm_compute; reflexivity|].
  split; vm_compute; reflexivity.
Qed.

(** C2, amended: the dispatcher never looks at the lease or at the power
    state.  For every incoming velocity intent, in every state of the robot,
    it forwards exactly one motion command to the Session and queues nothing
    (the node is left as it was).  No warning is logged; when the Session call
    raises RpcError or ResponseError the failure is logged at error level and
    the callback returns normally, and any other exception propagates. *)
Theorem C2_dispatch_is_unconditional
        (env : Env) (w : World) (msg : Twist) (c : Client) :
  command_client (self w) = Some c ->
  let out := cmd_vel_callback msg env w in
  let tr := since w (snd out) in
  let a := robot_command
             (synchro_velocity_command (vx (linear msg)) (vy (linear msg))
                                       (vz (angular msg)))
             (time_time env (trace w) + 0.5)%float in
  List.length (forwarded tr) = 1 /\
  self (snd out) = self w /\
  filter is_warning tr = [] /\
  match respond env (trace w) a with
  | Returns _ => fst out = Ok tt /\ filter (is_log ERROR) tr = []
  | Raises e =>
      if is_command_error e
      then fst out = Ok tt /\
           filter (is_log ERROR) tr
           = [Logged ERROR (FmtExn "Failed to send velocity command: " e)]
      else fst out = Raise e
  end.
Proof.
  intros Hc. cbv zeta.
  split; [now rewrite (forwarded_since_cmd_vel env w msg c Hc)|].
  split; [apply cmd_vel_keeps_self|].
  rewrite (cmd_vel_run env w msg c Hc). cbv zeta.
  destruct (respond env (trace w) _) as [b|e];
    [|destruct (is_command_error e)]; norm_trace; repeat split; reflexivity.
Qed.

Lemma C2_dispatch_witness :
  command_client (self (started_on loses_power))
  = Some (client_of RobotCommandClient) /\
  List.length
    (forwarded (since (started_on loses_power)
                      (snd (cmd_vel_callback intent loses_power
                              (started_on loses_power))))) = 1.
Proof.
  split; [vm_compute; reflexivity|].
  refine (proj1 (C2_dispatch_is_unconditional
                   loses_power (started_on loses_power) intent
                   (client_of RobotCommandClient) _)).
  vm_compute; reflexivity.
Defined.

(** *** Shutdown *)

(** Everything [shutdown] can do, whatever the environment answers. *)
Lemma shutdown_outcome (env : Env) (w : World) (r : result unit) (w' : World) :
  shutdown env w = (r, w') ->
  self w' = self w /\
  in_release_order (released (calls (since w w'))) [Power; Estop; Lease]
  = true /\
  all_but_last returned (calls (since w w')) = true /\
  filter is_logged (since w w') = [] /\
  match r with
  | Ok _ => released (calls (since w w')) = due_releases env w
  | Raise e => ends_with_raise e (since w w')
  end.
Proof.
  intros H. unfold_prog H.
  unfold due_releases, power_is_on.
  destruct (robot (self w)) as [rb|] eqn:Hr;
    destruct (estop_keep_alive (self w)) as [ek|] eqn:He;
    destruct (lease_keep_alive (self w)) as [lk|] eqn:Hl;
    cbn [truthy andb] in H |- *;
    repeat (cbn [self emit with_self with_node] in H;
            rewrite ?Hr, ?He, ?Hl in H; cbn [truthy andb] in H;
            try match type of H with
                | context [respond ?env ?tr ?a] =>
                    let R := fresh "R" in
                    destruct (respond env tr a) as [?b|?e] eqn:R
                | context [if ?b then _ else _] => is_var b; destruct b
                end);
    inversion H; subst; clear H;
    rewrite ?R; unfold ends_with_raise; norm_trace;
    repeat split; reflexivity.
Qed.

(** A call of [shutdown] that raises makes [shutdown] raise the same
    exception; a [shutdown] that returns has seen all its calls return. *)
Lemma shutdown_failures (env : Env) (w : World) (r : result unit) (w' : World) :
  shutdown env w = (r, w') ->
  (forall a e, In (a, Raises e) (calls (since w w')) -> r = Raise e) /\
  (r = Ok tt -> forallb returned (calls (since w w')) = true).
Proof.
  intros H. unfold_prog H.
  destruct (robot (self w)) as [rb|] eqn:Hr;
    destruct (estop_keep_alive (self w)) as [ek|] eqn:He;
    destruct (lease_keep_alive (self w)) as [lk|] eqn:Hl;
    cbn [truthy andb] in H;
    repeat (cbn [self emit with_self with_node] in H;
            rewrite ?Hr, ?He, ?Hl in H; cbn [truthy andb] in H;
            try match type of H with
                | context [respond ?env ?tr ?a] =>
                    let R := fresh "R" in
                    destruct (respond env tr a) as [?b|?e] eqn:R
                | context [if ?b then _ else _] => is_var b; destruct b
                end);
    inversion H; subst; clear H; norm_trace; cbn [calls In];
    (split; [intros a0 e0 Hin; intuition congruence
            | intros Hok; first [reflexivity | discriminate Hok]]).
Qed.

(** C3, as stated, fails: the power-off call raises, the exception leaves
    [shutdown] unlogged, and neither keep-alive, both active, is released. *)
Lemma C3_power_off_failure_skips_releases :
  fst (shutdown power_off_fails (started_on power_off_fails)) = Raise RpcError /\
  estop_keep_alive (self (started_on power_off_fails))
  = Some EstopKeepAlive_obj /\
  lease_keep_alive (self (started_on power_off_fails))
  = Some LeaseKeepAlive_obj /\
  released (calls (since (started_on power_off_fails)
                         (snd (shutdown power_off_fails
                                 (started_on power_off_fails)))))
  = [Power] /\
  filter is_logged (since (started_on power_off_fails)
                          (snd (shutdown power_off_fails
                                  (started_on power_off_fails))))
  = [].
Proof.
  split; [vm_compute; reflexivity|].
  split; [vm_compute; reflexivity|].
  split; [vm_compute; reflexivity|].
  split; vm_compute; reflexivity.
Qed.

(** C3, amended: [shutdown] attempts the releases in the order power-off,
    E-Stop keep-alive, lease keep-alive, each one only after every earlier call
    returned.  When no call raises, every release that is due is made (power-off
    if the robot is set and reports powered on, each keep-alive if it is set).
    The first call that raises ends [shutdown]: its exception propagates to the
    caller, nothing is logged, and no later release is attempted. *)
Theorem C3_shutdown_stops_at_first_failure (env : Env) (w : World) :
  let out := shutdown env w in
  let tr := since w (snd out) in
  in_release_order (released (calls tr)) [Power; Estop; Lease] = true /\
  all_but_last returned (calls tr) = true /\
  filter is_logged tr = [] /\
  (forall a e, In (a, Raises e) (calls tr) -> fst out = Raise e) /\
  match fst out with
  | Ok _ =>
      forallb returned (calls tr) = true /\
      released (calls tr) = due_releases env w
  | Raise e => ends_with_raise e tr
  end.
Proof.
  destruct (shutdown env w) as [r w'] eqn:H. cbn [fst snd].
  destruct (shutdown_outcome env w r w' H) as (_ & Ho & Ha & Hl & Hr).
  destruct (shutdown_failures env w r w' H) as (Hf & Hok).
  split; [exact Ho|]. split; [exact Ha|]. split; [exact Hl|].
  split; [exact Hf|].
  destruct r as [[]|e]; [|exact Hr]. split; [now apply Hok | exact Hr].
Qed.

Lemma times_due (env : Env) (w : World) :
  times Power (due_releases env w)
  = (if truthy (robot (self w)) && power_is_on env (trace w) then 1 else 0) /\
  times Estop (due_releases env w)
  = (if truthy (estop_keep_alive (self w)) then 1 else 0) /\
  times Lease (due_releases env w)
  = (if truthy (lease_keep_alive (self w)) then 1 else 0).
Proof.
  unfold due_releases.
  destruct (truthy (robot (self w)) && power_is_on env (trace w));
    destruct (truthy (estop_keep_alive (self w)));
    destruct (truthy (lease_keep_alive (self w))); repeat split.
Qed.

(** C5, as stated, fails: after a first successful [shutdown] of a started
    node, a second call returns normally too, and releases the E-Stop
    keep-alive and the lease keep-alive a second time. *)
Lemma C5_second_shutdown_releases_again :
  shutdown healthy_robot started = (Ok tt, after_shutdown) /\
  shutdown healthy_robot after_shutdown = (Ok tt, after_second_shutdown) /\
  released (calls (since started after_shutdown)) = [Power; Estop; Lease] /\
  released (calls (since after_shutdown after_second_shutdown))
  = [Estop; Lease].
Proof.
  split; [vm_compute; reflexivity|].
  split; [vm_compute; reflexivity|].
  split; vm_compute; reflexivity.
Qed.

(** C5, amended: [shutdown] skips the release of every handle that is unset,
    so on a node whose robot, E-Stop keep-alive and lease keep-alive are all
    unset it makes no call and returns normally.  It never clears a handle:
    the node is left as it was, and a second call after a successful one
    releases again each keep-alive that is set, and powers off again exactly
    when the robot still reports that it is powered on. *)
Theorem C5_shutdown_skips_unset_and_repeats (env : Env) (w : World) :
  (robot (self w) = None -> estop_keep_alive (self w) = None ->
   lease_keep_alive (self w) = None -> shutdown env w = (Ok tt, w)) /\
  (fst (shutdown env w) = Ok tt ->
   times Power (released (calls (since w (snd (shutdown env w)))))
   = (if truthy (robot (self w)) && power_is_on env (trace w) then 1 else 0) /\
   times Estop (released (calls (since w (snd (shutdown env w)))))
   = (if truthy (estop_keep_alive (self w)) then 1 else 0) /\
   times Lease (released (calls (since w (snd (shutdown env w)))))
   = (if truthy (lease_keep_alive (self w)) then 1 else 0)) /\
  self (snd (shutdown env w)) = self w /\
  (forall w1 w2,
     shutdown env w = (Ok tt, w1) ->
     shutdown env w1 = (Ok tt, w2) ->
     times Power (released (calls (since w1 w2)))
     = (if truthy (robot (self w)) && power_is_on env (trace w1)
        then 1 else 0) /\
     times Estop (released (calls (since w1 w2)))
     = (if truthy (estop_keep_alive (self w)) then 1 else 0) /\
     times Lease (released (calls (since w1 w2)))
     = (if truthy (lease_keep_alive (self w)) then 1 else 0)).
Proof.
  split; [|split; [|split]].
  - intros Hr He Hl.
    cbv [shutdown bind attr gets when ret].
    repeat (first [rewrite Hr | rewrite He | rewrite Hl]; cbn [truthy]).
    reflexivity.
  - destruct (shutdown env w) as [r w'] eqn:H. cbn [fst snd]. intros ->.
    destruct (shutdown_outcome env w _ w' H) as (_ & _ & _ & _ & Hrel).
    rewrite Hrel. apply times_due.
  - destruct (shutdown env w) as [r w'] eqn:H. cbn [snd].
    now destruct (shutdown_outcome env w r w' H).
  - intros w1 w2 H1 H2.
    destruct (shutdown_outcome env w _ w1 H1) as (Hself & _).
    destruct (shutdown_outcome env w1 _ w2 H2) as (_ & _ & _ & _ & Hrel).
    rewrite Hrel, <- Hself. apply times_due.
Qed.

(** *** The streaming reader and the state cache *)

Lemma cache_robot_state_run (env : Env) (w : World) (r : RobotState) :
  cache_robot_state r env w
  = (Ok tt, with_self (set_latest_state (Some r)) (emit received w)).
Proof. reflexivity. Qed.

Lemma cached_snoc (env : Env) (rs : list RobotState) (r : RobotState)
      (w : World) :
  cached env (rs ++ [r]) w
  = with_self (set_latest_state (Some r)) (emit received (cached env rs w)).
Proof. unfold cached. rewrite fold_left_app. reflexivity. Qed.

Lemma trace_cached (env : Env) (rs : list RobotState) :
  forall w, trace (cached env rs w) = trace w ++ map (fun _ => received) rs.
Proof.
  induction rs as [|r rs IH]; intros w; cbn [cached fold_left map].
  - now rewrite app_nil_r.
  - fold (cached env rs (snd (cache_robot_state r env w))).
    rewrite IH. cbn [cache_robot_state trace snd].
    rewrite cache_robot_state_run. cbn [snd trace with_self emit].
    now rewrite <- app_assoc.
Qed.

Lemma last_nonempty {A} (l : list A) (a d d' : A) :
  last (a :: l) d = last (a :: l) d'.
Proof.
  revert a. induction l as [|b l IH]; intros a; [reflexivity|].
  cbn [last] in *. apply IH.
Qed.

Lemma latest_cached (env : Env) (rs : list RobotState) :
  forall w, _latest_state (self (cached env rs w))
            = last (map Some rs) (_latest_state (self w)).
Proof.
  induction rs as [|r rs IH]; intros w; [reflexivity|].
  cbn [cached fold_left].
  fold (cached env rs (snd (cache_robot_state r env w))).
  rewrite IH. cbn [map]. destruct rs as [|r0 rs]; [reflexivity|].
  cbn [map].
  transitivity (last (Some r0 :: map Some rs) (_latest_state (self w)));
    [apply last_nonempty | reflexivity].
Qed.

(** The loop stops at the first item that raises; what follows is not read. *)
Lemma for_robot_state_fails (env : Env) (rs : list RobotState) (e : exn)
      (post : list stream_item) :
  forall w, for_robot_state (map yields rs ++ fails e :: post) env w
            = (Raise e, cached env rs w).
Proof.
  induction rs as [|r rs IH]; intros w; [reflexivity|].
  cbn [map app for_robot_state]. unfold bind at 1.
  rewrite cache_robot_state_run. rewrite IH. reflexivity.
Qed.

Lemma spin_telemetry (env : Env) (rs : list RobotState) :
  forall w, spin (map on_telemetry rs) env w = (Ok tt, cached env rs w).
Proof.
  induction rs as [|r rs IH]; intros w; [reflexivity|].
  cbn [map spin]. unfold bind at 1.
  rewrite cache_robot_state_run. rewrite IH. reflexivity.
Qed.

Lemma spin_app (env : Env) (l k : list spin_item) :
  forall w w', spin l env w = (Ok tt, w') ->
               spin (l ++ k) env w = spin k env w'.
Proof.
  induction l as [|it l IH]; intros w w' H.
  - cbn in H. injection H as <-. reflexivity.
  - destruct it as [msg| |rs|e]; cbn [app spin] in *; unfold bind in *.
    + destruct (cmd_vel_callback msg env w) as [[[]|e] w1];
        [now apply IH|discriminate].
    + destruct (timer_callback env w) as [[[]|e] w1];
        [now apply IH|discriminate].
    + destruct (cache_robot_state rs env w) as [[[]|e] w1];
        [now apply IH|discriminate].
    + discriminate.
Qed.

(** C4, as stated, fails: the stream raises once between two records; the
    thread ends normally after logging the error, only the first record was
    read (one line logged for it) and cached, and the second one never is. *)
Lemma C4_reader_stops_at_first_failure :
  stream glitchy_stream
  = [ yields (state_at 1); fails RpcError; yields (state_at 2) ] /\
  fst (_state_streaming_thread glitchy_stream started) = Ok tt /\
  since started (snd (_state_streaming_thread glitchy_stream started))
  = [ received;
      Logged ERROR (FmtExn "Error in state streaming thread: " RpcError) ] /\
  _latest_state (self (snd (_state_streaming_thread glitchy_stream started)))
  = Some (state_at 1).
Proof.
  split; [reflexivity|].
  split; [vm_compute; reflexivity|].
  split; vm_compute; reflexivity.
Qed.

(** C4, amended: an exception raised by the stream inside the pull loop (any
    subclass of Exception, transient or not) is logged at error level and ends
    the reader task, which returns normally: the loop does not go on, the
    records behind the failure are never read, and the cache keeps the last
    record written before it. *)
Theorem C4_stream_failure_ends_reader
        (env : Env) (w : World) (c : Client) (rs : list RobotState) (e : exn)
        (post : list stream_item) :
  robot_state_streaming_client (self w) = Some c ->
  stream env = map yields rs ++ fails e :: post ->
  is_Exception e = true ->
  let out := _state_streaming_thread env w in
  fst out = Ok tt /\
  since w (snd out)
  = map (fun _ => received) rs
    ++ [Logged ERROR (FmtExn "Error in state streaming thread: " e)] /\
  _latest_state (self (snd out))
  = last (map Some rs) (_latest_state (self w)).
Proof.
  intros Hc Hs He. cbv zeta.
  assert (Hrun : _state_streaming_thread env w
                 = (Ok tt,
                    emit (Logged ERROR
                            (FmtExn "Error in state streaming thread: " e))
                         (cached env rs w))).
  { cbv [_state_streaming_thread try_except bind attr gets deref ask ret].
    rewrite Hc, Hs, for_robot_state_fails, He. reflexivity. }
  rewrite Hrun. cbn [fst snd].
  split; [reflexivity|]. split.
  - unfold since. cbn [trace emit]. rewrite trace_cached, <- app_assoc.
    apply skipn_length_app.
  - cbn [self emit]. apply latest_cached.
Qed.

Lemma C4_stream_failure_witness :
  (robot_state_streaming_client (self started)
   = Some (client_of RobotStateStreamingClient) /\
   stream glitchy_stream
   = map yields [state_at 1] ++ fails RpcError :: [yields (state_at 2)] /\
   is_Exception RpcError = true) /\
  _latest_state (self (snd (_state_streaming_thread glitchy_stream started)))
  = last (map Some [state_at 1]) (_latest_state (self started)).
Proof.
  split; [repeat split; vm_compute; reflexivity|].
  refine (proj2 (proj2 (C4_stream_failure_ends_reader
                          glitchy_stream started
                          (client_of RobotStateStreamingClient)
                          [state_at 1] RpcError [yields (state_at 2)]
                          _ _ _))); vm_compute; reflexivity.
Defined.

(** C8: the cache is a single slot with last-write-wins semantics.  After the
    reader has written any records [rs] and then [r], with no read in between,
    the slot holds [r] and nothing else, whatever it held before, and keeps
    holding it for as long as the reader does not write again; the read of the
    periodic publisher returns [r], and the timer callback publishes the
    transform of [r]. *)
Theorem C8_last_write_wins
        (env : Env) (w : World) (rs : list RobotState) (r : RobotState) :
  let writes := map on_telemetry (rs ++ [r]) in
  let w' := snd (spin writes env w) in
  fst (spin writes env w) = Ok tt /\
  _latest_state (self w') = Some r /\
  (forall idle, forallb no_write idle = true ->
                _latest_state (self (snd (spin idle env w'))) = Some r) /\
  read_latest_state env w' = (Ok (Some r), w') /\
  timer_callback env w'
  = publish_transform
      (get_a_tform_b (transforms_snapshot r)
                     ODOM_FRAME_NAME GRAV_ALIGNED_BODY_FRAME_NAME) env w' /\
  spin (writes ++ [on_timer]) env w = spin [on_timer] env w'.
Proof.
  cbv zeta. rewrite spin_telemetry. cbn [fst snd].
  assert (L : _latest_state (self (cached env (rs ++ [r]) w)) = Some r).
  { rewrite cached_snoc. reflexivity. }
  split; [reflexivity|]. split; [exact L|]. split; [|split; [|split]].
  - intros idle Hidle.
    now rewrite (spin_keeps_self_without_writes idle env Hidle).
  - cbv [read_latest_state attr gets]. now rewrite L.
  - cbv [timer_callback read_latest_state attr gets bind]. now rewrite L.
  - apply spin_app. apply spin_telemetry.
Qed.

(** C10: while the cache still holds its initial empty value, the timer
    callback returns normally and leaves the world as it is: it publishes no
    transform and makes no call at all. *)
Theorem C10_timer_idle_before_first_record (env : Env) (w : World) :
  _latest_state (self w) = None ->
  timer_callback env w = (Ok tt, w) /\
  published (since w (snd (timer_callback env w))) = [].
Proof.
  intros H.
  assert (R : timer_callback env w = (Ok tt, w)).
  { cbv [timer_callback read_latest_state attr gets bind]. now rewrite H. }
  rewrite R. cbn [snd]. now rewrite since_refl.
Qed.

Lemma C10_timer_idle_witness :
  _latest_state (self started) = None /\
  timer_callback healthy_robot started = (Ok tt, started) /\
  published (since started (snd (timer_callback healthy_robot started))) = [].
Proof.
  split; [vm_compute; reflexivity|].
  apply (C10_timer_idle_before_first_record healthy_robot started).
  vm_compute; reflexivity.
Defined.

(** *** More on the constructor *)

(** What the constructor leaves in the node and in the log, whatever the
    environment answers. *)
Lemma init_details (env : Env) (w : World) (r : result unit) (w' : World) :
  __init__ env w = (r, w') ->
  let cs := calls (since w w') in
  (entered_try cs = true ->
   truthy (robot (self w')) = create_robot_returned cs /\
   truthy (lease_keep_alive (self w')) = has Lease (acquired cs) /\
   truthy (estop_keep_alive (self w')) = has Estop (acquired cs)) /\
  filter (is_log ERROR) (since w w')
  = match r with
    | Ok _ => []
    | Raise e =>
        if entered_try cs && negb (left_try cs) && is_sdk_error e
        then [connect_failure e] else []
    end /\
  (estop_reported cs = true ->
   r = Raise (AssertionError assert_not_estopped_msg) /\
   acquired cs = [Session]) /\
  (power_unconfirmed cs = true ->
   r = Raise (AssertionError "Robot power on failed.") /\
   acquired cs = [Session; Lease; Estop; Power] /\
   lease_keep_alive (self w') = Some LeaseKeepAlive_obj /\
   estop_keep_alive (self w') = Some EstopKeepAlive_obj).
Proof.
  intros H. exec H.
  all: cbv zeta; norm_trace.
  all: repeat match goal with
         | E : is_sdk_error _ = _ |- _ => cbn; rewrite ?E; clear E
         end.
  all: clear.
  all: split; [cbn; try (intros; discriminate); intros _; repeat split|].
  all: split; [cbn; reflexivity|].
  all: split; cbn; try (intros; discriminate); intros _; repeat split;
    reflexivity.
Qed.

(** X1: in a constructor that reached its [try] block, the handles of the
    node track what was acquired: [robot] is set exactly when the robot object
    was created, [lease_keep_alive] exactly when the lease keep-alive was
    acquired, [estop_keep_alive] exactly when the E-Stop keep-alive was. *)
Theorem init_handles_track_acquisition
        (env : Env) (w : World) (r : result unit) (w' : World) :
  __init__ env w = (r, w') ->
  entered_try (calls (since w w')) = true ->
  truthy (robot (self w')) = create_robot_returned (calls (since w w')) /\
  truthy (lease_keep_alive (self w'))
  = has Lease (acquired (calls (since w w'))) /\
  truthy (estop_keep_alive (self w'))
  = has Estop (acquired (calls (since w w'))).
Proof.
  intros H Htry.
  destruct (init_details env w r w' H) as (Hh & _). exact (Hh Htry).
Qed.

Lemma init_handles_witness :
  (__init__ estop_setup_fails before_failed_init
   = (Raise ResponseError, after_failed_init) /\
   entered_try (calls (since before_failed_init after_failed_init)) = true) /\
  truthy (robot (self after_failed_init)) = true /\
  truthy (lease_keep_alive (self after_failed_init)) = true /\
  truthy (estop_keep_alive (self after_failed_init)) = false.
Proof.
  split; [split; vm_compute; reflexivity|].
  exact (init_handles_track_acquisition
           estop_setup_fails before_failed_init (Raise ResponseError)
           after_failed_init
           ltac:(vm_compute; reflexivity) ltac:(vm_compute; reflexivity)).
Defined.


(** X3: when the robot reports that it is E-Stopped, the constructor
    raises the AssertionError of its check; the session is open but no lease,
    E-Stop endpoint or power was acquired, and no error line is logged. *)
Theorem init_refuses_estopped_robot
        (env : Env) (w : World) (r : result unit) (w' : World) :
  __init__ env w = (r, w') ->
  estop_reported (calls (since w w')) = true ->
  r = Raise (AssertionError assert_not_estopped_msg) /\
  acquired (calls (since w w')) = [Session] /\
  filter (is_log ERROR) (since w w') = [].
Proof.
  intros H Hstop.
  destruct (init_details env w r w' H) as (_ & Hl & He & _).
  destruct (He Hstop) as (-> & Hacq).
  split; [reflexivity|]. split; [exact Hacq|].
  rewrite Hl. cbn [is_sdk_error]. now rewrite andb_false_r.
Qed.

Lemma init_refuses_estopped_witness :
  (__init__ estopped_robot boot
   = (Raise (AssertionError assert_not_estopped_msg),
      started_on estopped_robot) /\
   estop_reported (calls (since boot (started_on estopped_robot))) = true) /\
  fst (__init__ estopped_robot boot)
  = Raise (AssertionError assert_not_estopped_msg) /\
  acquired (calls (since boot (started_on estopped_robot))) = [Session] /\
  filter (is_log ERROR) (since boot (started_on estopped_robot)) = [].
Proof.
  split; [split; vm_compute; reflexivity|].
  exact (init_refuses_estopped_robot
           estopped_robot boot _ (started_on estopped_robot)
           ltac:(vm_compute; reflexivity) ltac:(vm_compute; reflexivity)).
Defined.

(** X4: when the power-on command returns but the robot then reports that
    it is not powered on, the constructor raises the AssertionError of its
    check with the session, the lease keep-alive and the E-Stop keep-alive all
    acquired and none of them released. *)
Theorem init_power_check_leaves_resources_held
        (env : Env) (w : World) (r : result unit) (w' : World) :
  __init__ env w = (r, w') ->
  power_unconfirmed (calls (since w w')) = true ->
  r = Raise (AssertionError "Robot power on failed.") /\
  acquired (calls (since w w')) = [Session; Lease; Estop; Power] /\
  released (calls (since w w')) = [] /\
  lease_keep_alive (self w') = Some LeaseKeepAlive_obj /\
  estop_keep_alive (self w') = Some EstopKeepAlive_obj.
Proof.
  intros H Hp.
  destruct (init_details env w r w' H) as (_ & _ & _ & Hpow).
  destruct (init_outcome env w r w' H) as (_ & _ & Hrel & _).
  destruct (Hpow Hp) as (-> & Hacq & Hl & He).
  auto.
Qed.

Lemma init_power_check_witness :
  (__init__ stays_off boot
   = (Raise (AssertionError "Robot power on failed."), started_on stays_off) /\
   power_unconfirmed (calls (since boot (started_on stays_off))) = true) /\
  fst (__init__ stays_off boot)
  = Raise (AssertionError "Robot power on failed.") /\
  acquired (calls (since boot (started_on stays_off)))
  = [Session; Lease; Estop; Power] /\
  released (calls (since boot (started_on stays_off))) = [] /\
  lease_keep_alive (self (started_on stays_off)) = Some LeaseKeepAlive_obj /\
  estop_keep_alive (self (started_on stays_off)) = Some EstopKeepAlive_obj.
Proof.
  split; [split; vm_compute; reflexivity|].
  exact (init_power_check_leaves_resources_held
           stays_off boot _ (started_on stays_off)
           ltac:(vm_compute; reflexivity) ltac:(vm_compute; reflexivity)).
Defined.

(** *** More on the periodic publisher *)

(** X5: with a record in the cache whose frame tree connects odom to the
    body, one tick of the timer hands exactly one transform to the broadcaster:
    from frame odom to frame base_link, stamped with the node clock, with the
    translation and the rotation of the cached pose unchanged.  The node is
    left as it was, and the tick raises only what the broadcaster raises. *)
Theorem timer_publishes_cached_pose
        (env : Env) (w : World) (rs : RobotState) (p : SE3Pose)
        (b : RosHandle) :
  _latest_state (self w) = Some rs ->
  transforms_snapshot rs ODOM_FRAME_NAME GRAV_ALIGNED_BODY_FRAME_NAME = Some p ->
  tf_broadcaster (self w) = Some b ->
  let t := odom_to_base_link (clock_now env (trace w)) p in
  published (since w (snd (timer_callback env w))) = [t] /\
  self (snd (timer_callback env w)) = self w /\
  fst (timer_callback env w)
  = match respond env (trace w) (sendTransform t) with
    | Returns _ => Ok tt
    | Raises e => Raise e
    end.
Proof.
  intros Hs Hp Hb. cbv zeta.
  cbv [timer_callback read_latest_state publish_transform get_a_tform_b
       bind attr gets deref ret call get_clock_now raise].
  rewrite Hs, Hp, Hb. destruct p as [[px py pz] [rx ry rz rw]].
  cbn [position rotation vx vy vz qx qy qz qw]. unfold odom_to_base_link.
  cbn [position rotation].
  destruct (respond env (trace w) _) as [ok|e]; cbn [fst snd];
    norm_trace; repeat split; reflexivity.
Qed.

Lemma timer_publishes_witness :
  (_latest_state (self tracking) = Some (state_at 1) /\
   transforms_snapshot (state_at 1) ODOM_FRAME_NAME
                       GRAV_ALIGNED_BODY_FRAME_NAME = Some (pose_at 1) /\
   tf_broadcaster (self tracking) = Some ros_handle) /\
  published (since tracking (snd (timer_callback healthy_robot tracking)))
  = [odom_to_base_link 0 (pose_at 1)].
Proof.
  split; [repeat split; vm_compute; reflexivity|].
  exact (proj1 (timer_publishes_cached_pose
                  healthy_robot tracking (state_at 1) (pose_at 1) ros_handle
                  ltac:(vm_compute; reflexivity) ltac:(reflexivity)
                  ltac:(vm_compute; reflexivity))).
Defined.

(** X6: with a record in the cache whose frame tree does not connect odom
    to the body, a tick of the timer does not skip the publication: it raises
    AttributeError, having published nothing. *)
Theorem timer_raises_without_odom_frame
        (env : Env) (w : World) (rs : RobotState) :
  _latest_state (self w) = Some rs ->
  transforms_snapshot rs ODOM_FRAME_NAME GRAV_ALIGNED_BODY_FRAME_NAME = None ->
  timer_callback env w = (Raise AttributeError, w) /\
  spin [on_timer] env w = (Raise AttributeError, w).
Proof.
  intros Hs Hp.
  assert (R : timer_callback env w = (Raise AttributeError, w)).
  { cbv [timer_callback read_latest_state publish_transform get_a_tform_b
         bind attr gets deref ret call get_clock_now raise].
    rewrite Hs, Hp. reflexivity. }
  split; [exact R|]. cbn [spin]. unfold bind. now rewrite R.
Qed.

Lemma timer_raises_witness :
  (_latest_state (self lost_frames) = Some state_without_frames /\
   transforms_snapshot state_without_frames ODOM_FRAME_NAME
                       GRAV_ALIGNED_BODY_FRAME_NAME = None) /\
  timer_callback healthy_robot lost_frames = (Raise AttributeError, lost_frames) /\
  spin [on_timer] healthy_robot lost_frames = (Raise AttributeError, lost_frames).
Proof.
  split; [split; vm_compute; reflexivity|].
  exact (timer_raises_without_odom_frame
           healthy_robot lost_frames state_without_frames
           ltac:(vm_compute; reflexivity) ltac:(reflexivity)).
Defined.

(** *** More on the streaming reader *)

(** The loop reads the records in front of the first failure and ends with
    that failure, or normally at the end of the stream. *)
Lemma for_robot_state_run (env : Env) (items : list stream_item) :
  forall w,
    for_robot_state items env w
    = (match first_failure items with
       | None => Ok tt
       | Some e => Raise e
       end,
       cached env (read_before_failure items) w).
Proof.
  induction items as [|[r|e] items IH]; intros w; try reflexivity.
  cbn [for_robot_state first_failure read_before_failure]. unfold bind at 1.
  rewrite cache_robot_state_run, IH. reflexivity.
Qed.

Lemma first_failure_yields (rs : list RobotState) :
  first_failure (map yields rs) = None.
Proof. induction rs as [|r rs IH]; simpl; [reflexivity | exact IH]. Qed.

Lemma read_before_failure_yields (rs : list RobotState) :
  read_before_failure (map yields rs) = rs.
Proof.
  induction rs as [|r rs IH]; simpl; [reflexivity | now rewrite IH].
Qed.

(** X7: the reader thread never lets an Exception escape, whatever the
    stream does and whatever the state of the node: it returns normally, or
    raises the first failure of the stream when that is not an Exception (a
    KeyboardInterrupt). *)
Theorem reader_thread_contains_exceptions (env : Env) (w : World) :
  match fst (_state_streaming_thread env w) with
  | Ok _ => True
  | Raise e => is_Exception e = false /\ first_failure (stream env) = Some e
  end.
Proof.
  cbv [_state_streaming_thread try_except bind attr gets deref ask ret raise].
  destruct (robot_state_streaming_client (self w)) as [c|]; [|exact I].
  rewrite for_robot_state_run.
  destruct (first_failure (stream env)) as [e|]; [|exact I].
  destruct (is_Exception e) eqn:E; cbn [fst]; [exact I|auto].
Qed.

(** X8: on a stream that ends without a failure the reader thread reads
    every record, logs one line for each and no error, returns normally, and
    leaves the last record of the stream in the cache. *)
Theorem reader_thread_drains_stream
        (env : Env) (w : World) (c : Client) (rs : list RobotState) :
  robot_state_streaming_client (self w) = Some c ->
  stream env = map yields rs ->
  let out := _state_streaming_thread env w in
  fst out = Ok tt /\
  since w (snd out) = map (fun _ => received) rs /\
  _latest_state (self (snd out)) = last (map Some rs) (_latest_state (self w)).
Proof.
  intros Hc Hs. cbv zeta.
  pose proof (first_failure_yields rs) as F.
  pose proof (read_before_failure_yields rs) as B.
  assert (R : _state_streaming_thread env w = (Ok tt, cached env rs w)).
  { cbv [_state_streaming_thread try_except bind attr gets deref ask ret].
    rewrite Hc, Hs, for_robot_state_run, F, B. reflexivity. }
  rewrite R. cbn [fst snd]. split; [reflexivity|]. split.
  - unfold since. rewrite trace_cached. apply skipn_length_app.
  - apply latest_cached.
Qed.

Lemma reader_thread_drains_witness :
  (robot_state_streaming_client (self started)
   = Some (client_of RobotStateStreamingClient) /\
   stream steady_stream = map yields [state_at 1; state_at 2]) /\
  fst (_state_streaming_thread steady_stream started) = Ok tt /\
  since started (snd (_state_streaming_thread steady_stream started))
  = [received; received] /\
  _latest_state (self (snd (_state_streaming_thread steady_stream started)))
  = Some (state_at 2).
Proof.
  split; [split; vm_compute; reflexivity|].
  exact (reader_thread_drains_stream
           steady_stream started (client_of RobotStateStreamingClient)
           [state_at 1; state_at 2]
           ltac:(vm_compute; reflexivity) ltac:(reflexivity)).
Defined.

(** *** Runs of the executor *)

Lemma grows_refl (w : World) : grows w w.
Proof. unfold grows. now rewrite since_refl, app_nil_r. Qed.

Lemma grows_since (w w' : World) (evs : list event) :
  trace w' = trace w ++ evs -> grows w w' /\ since w w' = evs.
Proof.
  intros H. assert (S : since w w' = evs).
  { unfold since. rewrite H. apply skipn_length_app. }
  split; [unfold grows; now rewrite S | exact S].
Qed.

Lemma grows_trans (w w1 w2 : World) :
  grows w w1 -> grows w1 w2 ->
  grows w w2 /\ since w w2 = since w w1 ++ since w1 w2.
Proof.
  unfold grows. intros H1 H2. apply grows_since.
  now rewrite H2, H1 at 1; rewrite <- app_assoc.
Qed.

Lemma calls_app (l k : list event) : calls (l ++ k) = calls l ++ calls k.
Proof.
  induction l as [|[a r|lv t|t] l IH]; simpl; auto. now rewrite IH.
Qed.

Ltac grows_by_trace :=
  eapply grows_since; cbn [trace emit with_self with_node];
  rewrite <- ?app_assoc; cbn [app]; reflexivity.

(** One intent: the trace grows by the call and one log line. *)
Lemma cmd_vel_grows (env : Env) (w : World) (msg : Twist) (c : Client) :
  command_client (self w) = Some c ->
  grows w (snd (cmd_vel_callback msg env w)) /\
  published (since w (snd (cmd_vel_callback msg env w))) = [] /\
  spot_driver_node (snd (cmd_vel_callback msg env w)) = spot_driver_node w.
Proof.
  intros Hc. rewrite (cmd_vel_run env w msg c Hc). cbv zeta.
  destruct (respond env (trace w) _) as [b|e];
    [|destruct (is_command_error e)]; cbn [snd].
  all: split; [eapply proj1; grows_by_trace|].
  all: split; [norm_trace; reflexivity | reflexivity].
Qed.

Lemma timer_grows (env : Env) (w : World) :
  grows w (snd (timer_callback env w)) /\
  forwarded (since w (snd (timer_callback env w))) = [] /\
  spot_driver_node (snd (timer_callback env w)) = spot_driver_node w /\
  (_latest_state (self w) = None -> snd (timer_callback env w) = w).
Proof.
  destruct (timer_callback env w) as [r w'] eqn:H. cbn [snd].
  unfold_prog H.
  destruct (_latest_state (self w)) as [rs|];
    [|inversion H; subst; rewrite since_refl;
      repeat split; auto using grows_refl].
  destruct (get_a_tform_b _ _ _);
    [|inversion H; subst; rewrite since_refl;
      repeat split; auto using grows_refl; discriminate].
  destruct (tf_broadcaster (self w));
    [|inversion H; subst; rewrite since_refl;
      repeat split; auto using grows_refl; discriminate].
  split_calls H; inversion H; subst; clear H.
  all: split; [eapply proj1; grows_by_trace|].
  all: split; [norm_trace; reflexivity|].
  all: split; [reflexivity | discriminate].
Qed.

Lemma cache_grows (env : Env) (w : World) (r : RobotState) :
  grows w (snd (cache_robot_state r env w)) /\
  since w (snd (cache_robot_state r env w)) = [received].
Proof. rewrite cache_robot_state_run. cbn [snd]. grows_by_trace. Qed.

Lemma handles_of (d d' : Driver) :
  set_latest_state None d' = set_latest_state None d ->
  robot d' = robot d /\ estop_keep_alive d' = estop_keep_alive d /\
  lease_keep_alive d' = lease_keep_alive d /\
  command_client d' = command_client d.
Proof.
  intros H.
  assert (K : forall A (f : Driver -> A),
             f (set_latest_state None d') = f (set_latest_state None d))
    by (intros; now rewrite H).
  repeat split.
  - exact (K _ robot).
  - exact (K _ estop_keep_alive).
  - exact (K _ lease_keep_alive).
  - exact (K _ command_client).
Qed.

(** Whatever the executor runs, the trace only grows, the handles of the
    node stay what they were and so does the node variable of [main]. *)
Lemma spin_invariants (items : list spin_item) (env : Env) :
  forall w,
    grows w (snd (spin items env w)) /\
    set_latest_state None (self (snd (spin items env w)))
    = set_latest_state None (self w) /\
    spot_driver_node (snd (spin items env w)) = spot_driver_node w.
Proof.
  induction items as [|it items IH]; intros w.
  - cbn [spin ret snd]. auto using grows_refl.
  - destruct it as [msg| |rs|e]; cbn [spin]; unfold bind.
    + pose proof (cmd_vel_keeps_self env w msg) as K.
      assert (G : grows w (snd (cmd_vel_callback msg env w)) /\
                  spot_driver_node (snd (cmd_vel_callback msg env w))
                  = spot_driver_node w).
      { destruct (command_client (self w)) as [c|] eqn:Hc.
        - destruct (cmd_vel_grows env w msg c Hc) as (G & _ & N). auto.
        - cbv [cmd_vel_callback bind time try_except attr gets deref raise].
          rewrite Hc. cbn [snd]. auto using grows_refl. }
      destruct G as [G N].
      destruct (cmd_vel_callback msg env w) as [[[]|e] w1]; cbn [snd] in *.
      * destruct (IH w1) as (G1 & S1 & N1).
        split; [exact (proj1 (grows_trans _ _ _ G G1))|].
        now rewrite S1, N1, K.
      * now rewrite K.
    + pose proof (timer_keeps_self env w) as K.
      destruct (timer_grows env w) as (G & _ & N & _).
      destruct (timer_callback env w) as [[[]|e] w1]; cbn [snd] in *.
      * destruct (IH w1) as (G1 & S1 & N1).
        split; [exact (proj1 (grows_trans _ _ _ G G1))|].
        now rewrite S1, N1, K.
      * now rewrite K.
    + destruct (cache_grows env w rs) as (G & _).
      rewrite cache_robot_state_run in *. cbn [snd] in *.
      destruct (IH (with_self (set_latest_state (Some rs)) (emit received w)))
        as (G1 & S1 & N1).
      split; [exact (proj1 (grows_trans _ _ _ G G1))|].
      now rewrite S1, N1.
    + cbn [raise snd]. auto using grows_refl.
Qed.

(** X9: while the executor runs without an exception, the dispatcher
    forwards the velocity intents one for one: the commands sent to the Session
    are the commands of the intents delivered, in the order of delivery, none
    dropped, none repeated, whatever else the executor ran in between. *)
Theorem intents_forwarded_in_order
        (items : list spin_item) (env : Env) (w w' : World) (c : Client) :
  command_client (self w) = Some c ->
  spin items env w = (Ok tt, w') ->
  map fst (forwarded (since w w')) = map command_of (intents items).
Proof.
  revert w. induction items as [|it items IH]; intros w Hc H.
  - cbn in H. injection H as <-. now rewrite since_refl.
  - destruct it as [msg| |rs|e]; cbn [spin] in H; unfold bind in H.
    + pose proof (cmd_vel_keeps_self env w msg) as K.
      destruct (cmd_vel_grows env w msg c Hc) as (G & _).
      pose proof (forwarded_since_cmd_vel env w msg c Hc) as F.
      destruct (cmd_vel_callback msg env w) as [[[]|e] w1];
        [|discriminate]. cbn [snd] in *.
      pose proof (spin_invariants items env w1) as (G1 & _).
      rewrite H in G1. cbn [snd] in G1.
      rewrite (proj2 (grows_trans _ _ _ G G1)).
      unfold forwarded in *. rewrite calls_app, pick_app, map_app, F.
      cbn [intents map app fst].
      f_equal. apply (IH w1); [now rewrite K | exact H].
    + pose proof (timer_keeps_self env w) as K.
      destruct (timer_grows env w) as (G & F & _).
      destruct (timer_callback env w) as [[[]|e] w1];
        [|discriminate]. cbn [snd] in *.
      pose proof (spin_invariants items env w1) as (G1 & _).
      rewrite H in G1. cbn [snd] in G1.
      rewrite (proj2 (grows_trans _ _ _ G G1)).
      unfold forwarded in *. rewrite calls_app, pick_app, map_app, F.
      cbn [intents map app]. apply (IH w1); [now rewrite K | exact H].
    + destruct (cache_grows env w rs) as (G & F).
      rewrite cache_robot_state_run in *. cbn [snd] in *.
      pose proof (spin_invariants items env
                    (with_self (set_latest_state (Some rs)) (emit received w)))
        as (G1 & _).
      rewrite H in G1. cbn [snd] in G1.
      rewrite (proj2 (grows_trans _ _ _ G G1)).
      unfold forwarded. rewrite calls_app, pick_app, map_app, F.
      cbn [intents calls pick map app received].
      apply (IH (with_self (set_latest_state (Some rs)) (emit received w)));
        [exact Hc | exact H].
    + discriminate.
Qed.

Lemma intents_forwarded_witness :
  (command_client (self started) = Some (client_of RobotCommandClient) /\
   spin busy_schedule healthy_robot started
   = (Ok tt, snd (spin busy_schedule healthy_robot started))) /\
  map fst (forwarded (since started
                            (snd (spin busy_schedule healthy_robot started))))
  = [command_of intent].
Proof.
  split; [split; vm_compute; reflexivity|].
  exact (intents_forwarded_in_order
           busy_schedule healthy_robot started _ (client_of RobotCommandClient)
           ltac:(vm_compute; reflexivity) ltac:(vm_compute; reflexivity)).
Defined.

(** X10: as long as the reader has written no record, the executor can run
    any number of timer ticks and intents and no transform is ever published. *)
Theorem publisher_silent_until_first_record
        (idle : list spin_item) (env : Env) (w : World) :
  _latest_state (self w) = None ->
  forallb no_write idle = true ->
  published (since w (snd (spin idle env w))) = [].
Proof.
  revert w. induction idle as [|it idle IH]; intros w Hn Hi.
  - cbn [spin ret snd]. now rewrite since_refl.
  - cbn [forallb] in Hi. apply andb_prop in Hi as [Hit Hi].
    destruct it as [msg| |rs|e]; cbn [spin]; unfold bind;
      try discriminate Hit.
    + pose proof (cmd_vel_keeps_self env w msg) as K.
      assert (G : grows w (snd (cmd_vel_callback msg env w)) /\
                  published (since w (snd (cmd_vel_callback msg env w))) = []).
      { destruct (command_client (self w)) as [c|] eqn:Hc.
        - destruct (cmd_vel_grows env w msg c Hc) as (G & P & _). auto.
        - cbv [cmd_vel_callback bind time try_except attr gets deref raise].
          rewrite Hc. cbn [snd]. rewrite since_refl. auto using grows_refl. }
      destruct G as [G P].
      destruct (cmd_vel_callback msg env w) as [[[]|e] w1]; cbn [snd] in *;
        [|exact P].
      pose proof (spin_invariants idle env w1) as (G1 & _).
      rewrite (proj2 (grows_trans _ _ _ G G1)).
      unfold published in *. rewrite calls_app, pick_app, P.
      apply IH; [now rewrite K | exact Hi].
    + destruct (timer_grows env w) as (_ & _ & _ & Hid).
      pose proof (Hid Hn) as E.
      destruct (timer_callback env w) as [[[]|e] w1]; cbn [snd] in *;
        subst w1; [now apply IH | now rewrite since_refl].
    + cbn [raise snd]. now rewrite since_refl.
Qed.

Lemma publisher_silent_witness :
  (_latest_state (self started) = None /\
   forallb no_write idle_schedule = true) /\
  published (since started (snd (spin idle_schedule healthy_robot started)))
  = [].
Proof.
  split; [split; vm_compute; reflexivity|].
  exact (publisher_silent_until_first_record
           idle_schedule healthy_robot started
           ltac:(vm_compute; reflexivity) ltac:(reflexivity)).
Defined.

(** *** [main] after a successful construction *)

Lemma shutdown_grows (env : Env) (w : World) :
  grows w (snd (shutdown env w)).
Proof.
  destruct (shutdown env w) as [r w'] eqn:H. cbn [snd]. unfold_prog H.
  destruct (robot (self w)) as [rb|] eqn:Hr;
    destruct (estop_keep_alive (self w)) as [ek|] eqn:He;
    destruct (lease_keep_alive (self w)) as [lk|] eqn:Hl;
    cbn [truthy andb] in H;
    repeat (cbn [self emit with_self with_node] in H;
            rewrite ?Hr, ?He, ?Hl in H; cbn [truthy andb] in H;
            try match type of H with
                | context [respond ?env ?tr ?a] =>
                    let R := fresh "R" in
                    destruct (respond env tr a) as [?b|?e] eqn:R
                | context [if ?b then _ else _] => is_var b; destruct b
                end);
    inversion H; subst; clear H;
    first [apply grows_refl | eapply proj1; grows_by_trace].
Qed.

Lemma main_loop_invariants (env : Env) (w : World) :
  grows w (snd (main_loop env w)) /\
  set_latest_state None (self (snd (main_loop env w)))
  = set_latest_state None (self w) /\
  spot_driver_node (snd (main_loop env w)) = spot_driver_node w.
Proof.
  cbv [main_loop bind call ask].
  destruct (respond env (trace w) rclpy_ok) as [[|]|e]; cbn [snd].
  - destruct (spin_invariants (schedule env) env
                (emit (Called rclpy_ok (Returns true)) w)) as (G & S & N).
    split; [|split; [exact S | exact N]].
    refine (proj1 (grows_trans w _ _ _ G)). eapply proj1; grows_by_trace.
  - split; [eapply proj1; grows_by_trace | split; reflexivity].
  - split; [eapply proj1; grows_by_trace | split; reflexivity].
Qed.

Lemma farewell_invariants (r : result unit) (w : World) :
  grows w (farewell r w) /\ self (farewell r w) = self w /\
  spot_driver_node (farewell r w) = spot_driver_node w.
Proof.
  destruct r as [[]|e]; cbn [farewell]; [auto using grows_refl|].
  destruct (is_KeyboardInterrupt e); [|destruct (is_sdk_error e)];
    try (split; [eapply proj1; grows_by_trace | split; reflexivity]).
  auto using grows_refl.
Qed.

(** [main] once the constructor has returned: the main loop, the handler for
    what left it, then the teardown. *)
Lemma main_after_startup (env : Env) (w0 w1 : World) :
  main_prelude env boot = (Ok tt, w0) ->
  __init__ env w0 = (Ok tt, w1) ->
  let out := main_loop env (with_node true w1) in
  let fin := teardown env (farewell (fst out) (snd out)) in
  main env boot
  = (match fst fin with Ok _ => swallowed (fst out) | Raise e => Raise e end,
     snd fin).
Proof.
  intros Hpre Hinit. cbv zeta.
  cbv [main_prelude bind call modify] in Hpre.
  destruct (respond env (trace boot) rclpy_init) as [b|e0] eqn:R;
    [|discriminate Hpre].
  injection Hpre as <-.
  change main with
    (call rclpy_init ;; modify (with_node false) ;;
     try_finally
       (try_except
          (__init__ ;; modify (with_node true) ;; main_loop)
          (fun e => is_KeyboardInterrupt e || is_sdk_error e)
          (fun e =>
             node <- gets spot_driver_node ;;
             if is_KeyboardInterrupt e
             then when node
                    (print (Lit "Shutting down the Robot due to KeyboardInterrupt."))
             else when node
                    (print (FmtExn "Shutting down the Robot due to Spot-SDK error: " e))))
       (node <- gets spot_driver_node ;; when node teardown)).
  cbv [bind call modify try_finally try_except].
  rewrite R, Hinit.
  destruct (main_loop_invariants env (with_node true w1)) as (_ & _ & N).
  cbn [spot_driver_node with_node] in N.
  destruct (main_loop env (with_node true w1)) as [[[]|e] wl];
    cbn [fst snd farewell swallowed] in *.
  - cbv [gets when]. rewrite N.
    destruct (teardown env wl) as [[[]|e] wf]; reflexivity.
  - destruct (is_KeyboardInterrupt e) eqn:K; cbn [orb].
    + cbv [gets when print modify]. rewrite N. cbn [spot_driver_node emit].
      rewrite N.
      destruct (teardown env _) as [[[]|e'] wf]; reflexivity.
    + destruct (is_sdk_error e) eqn:S.
      * cbv [gets when print modify]. rewrite N. cbn [spot_driver_node emit].
        rewrite N.
        destruct (teardown env _) as [[[]|e'] wf]; reflexivity.
      * cbv [gets when]. rewrite N.
        destruct (teardown env wl) as [[[]|e'] wf]; reflexivity.
Qed.

Lemma teardown_run (env : Env) (w : World) :
  teardown env w
  = match shutdown env w with
    | (Ok _, w3) =>
        match respond env (trace w3) destroy_node with
        | Returns b => (Ok tt, emit (Called destroy_node (Returns b)) w3)
        | Raises e => (Raise e, emit (Called destroy_node (Raises e)) w3)
        end
    | (Raise e, w3) => (Raise e, w3)
    end.
Proof.
  unfold teardown. unfold bind at 1.
  destruct (shutdown env w) as [[[]|e] w3]; [|reflexivity].
  cbv [bind call ret].
  destruct (respond env (trace w3) destroy_node); reflexivity.
Qed.

(** The teardown of [main] once the constructor has succeeded, by what
    [shutdown] returns. *)
Lemma main_teardown (env : Env) (w0 w1 : World) :
  main_prelude env boot = (Ok tt, w0) ->
  __init__ env w0 = (Ok tt, w1) ->
  let out := main_loop env (with_node true w1) in
  let w2 := farewell (fst out) (snd out) in
  grows w1 w2 /\
  match fst (shutdown env w2) with
  | Ok _ =>
      forallb returned (calls (since w2 (snd (shutdown env w2)))) = true /\
      released (calls (since w2 (snd (main env boot))))
      = (if power_is_on env (trace w2) then [Power] else [])
        ++ [Estop; Lease] /\
      (exists r, since (snd (shutdown env w2)) (snd (main env boot))
                 = [Called destroy_node r])
  | Raise e => main env boot = (Raise e, snd (shutdown env w2))
  end.
Proof.
  intros Hpre Hinit. cbv zeta.
  rewrite (main_after_startup env w0 w1 Hpre Hinit). cbv zeta.
  destruct (init_outcome env w0 _ w1 Hinit)
    as (_ & _ & _ & _ & _ & _ & _ & _ & Hself).
  destruct (main_loop_invariants env (with_node true w1)) as (G & S & _).
  destruct (farewell_invariants (fst (main_loop env (with_node true w1)))
                                (snd (main_loop env (with_node true w1))))
    as (G' & S' & _).
  set (w2 := farewell _ _) in *.
  assert (Gw : grows w1 w2).
  { refine (proj1 (grows_trans w1 _ _ _ G')).
    unfold grows, since in *. exact G. }
  split; [exact Gw|].
  assert (Hh : robot (self w2) = Some (robot_of (configured_hostname env)) /\
               estop_keep_alive (self w2) = Some EstopKeepAlive_obj /\
               lease_keep_alive (self w2) = Some LeaseKeepAlive_obj).
  { rewrite S'. destruct (handles_of _ _ S) as (-> & -> & -> & _).
    cbn [self with_node]. rewrite Hself. repeat split. }
  destruct Hh as (Hr & He & Hl).
  pose proof (shutdown_grows env w2) as G3.
  rewrite teardown_run.
  destruct (shutdown env w2) as [[[]|e] w3] eqn:Hs; cbn [fst snd] in *;
    [|reflexivity].
  destruct (shutdown_outcome env w2 _ w3 Hs) as (_ & _ & _ & _ & Hrel).
  destruct (shutdown_failures env w2 _ w3 Hs) as (_ & Hret).
  split; [now apply Hret|].
  destruct (respond env (trace w3) destroy_node) as [b|e]; cbn [fst snd].
  all: match goal with
       | |- context [emit (Called destroy_node ?a) ?w] =>
           assert (G4 : grows w (emit (Called destroy_node a) w) /\
                        since w (emit (Called destroy_node a) w)
                        = [Called destroy_node a])
             by grows_by_trace
       end.
  all: destruct G4 as (G4 & S4).
  all: split; [|eexists; exact S4].
  all: rewrite (proj2 (grows_trans _ _ _ G3 G4)), S4.
  all: rewrite calls_app; unfold released in *; rewrite pick_app, Hrel.
  all: unfold due_releases; rewrite Hr, He, Hl; cbn [truthy andb].
  all: cbn; now rewrite app_nil_r.
Qed.

(** X11: once the constructor has succeeded, [main] always ends by running
    [shutdown] on the node, however the main loop ended (normal return,
    KeyboardInterrupt, SDK error, any other exception, or [rclpy.ok()] false).
    If no call of [shutdown] raises, the power is cut when the robot reports
    that it is on, and the E-Stop keep-alive and then the lease keep-alive are
    released, each once, before the node is destroyed.  If a call of [shutdown]
    raises, that exception leaves [main] and the node is not destroyed: [main]
    ends in the world in which that call raised. *)
Theorem main_shuts_down_after_startup (env : Env) (w0 w1 : World) :
  main_prelude env boot = (Ok tt, w0) ->
  __init__ env w0 = (Ok tt, w1) ->
  let out := main_loop env (with_node true w1) in
  let w2 := farewell (fst out) (snd out) in
  grows w1 w2 /\
  (forall a e,
     In (a, Raises e) (calls (since w2 (snd (shutdown env w2)))) ->
     main env boot = (Raise e, snd (shutdown env w2))) /\
  match fst (shutdown env w2) with
  | Ok _ =>
      forallb returned (calls (since w2 (snd (shutdown env w2)))) = true /\
      released (calls (since w2 (snd (main env boot))))
      = (if power_is_on env (trace w2) then [Power] else [])
        ++ [Estop; Lease] /\
      (exists r, since (snd (shutdown env w2)) (snd (main env boot))
                 = [Called destroy_node r])
  | Raise e => main env boot = (Raise e, snd (shutdown env w2))
  end.
Proof.
  intros Hpre Hinit. cbv zeta.
  destruct (main_teardown env w0 w1 Hpre Hinit) as (G & M).
  split; [exact G|]. split; [|exact M].
  intros a e Hin.
  destruct (shutdown env (farewell (fst (main_loop env (with_node true w1)))
                                   (snd (main_loop env (with_node true w1)))))
    as [r3 w3] eqn:Hs.
  cbn [fst snd] in *.
  destruct (shutdown_failures env _ r3 w3 Hs) as (Hf & _).
  rewrite (Hf a e Hin) in M. exact M.
Qed.

Lemma main_shuts_down_witness :
  (main_prelude interrupted boot = (Ok tt, entering interrupted) /\
   __init__ interrupted (entering interrupted)
   = (Ok tt, constructed interrupted)) /\
  (let out := main_loop interrupted (with_node true (constructed interrupted)) in
   let w2 := farewell (fst out) (snd out) in
   grows (constructed interrupted) w2 /\
   (forall a e,
      In (a, Raises e) (calls (since w2 (snd (shutdown interrupted w2)))) ->
      main interrupted boot = (Raise e, snd (shutdown interrupted w2))) /\
   match fst (shutdown interrupted w2) with
   | Ok _ =>
       forallb returned (calls (since w2 (snd (shutdown interrupted w2))))
       = true /\
       released (calls (since w2 (snd (main interrupted boot))))
       = (if power_is_on interrupted (trace w2) then [Power] else [])
         ++ [Estop; Lease] /\
       (exists r, since (snd (shutdown interrupted w2))
                        (snd (main interrupted boot))
                  = [Called destroy_node r])
   | Raise e => main interrupted boot = (Raise e, snd (shutdown interrupted w2))
   end) /\
  released (calls (since (constructed interrupted)
                         (snd (main interrupted boot))))
  = [Power; Estop; Lease].
Proof.
  split; [split; vm_compute; reflexivity|].
  split; [|vm_compute; reflexivity].
  exact (main_shuts_down_after_startup
           interrupted (entering interrupted) (constructed interrupted)
           ltac:(vm_compute; reflexivity) ltac:(vm_compute; reflexivity)).
Defined.

(** X12: once the constructor has succeeded and the teardown returns
    normally, [main] returns normally when the main loop returned or was left
    by a KeyboardInterrupt or an SDK error (RpcError, ResponseError,
    LeaseError); any other exception that left the main loop is raised again by
    [main], after the teardown. *)
Theorem main_swallows_interrupts_and_sdk_errors (env : Env) (w0 w1 : World) :
  main_prelude env boot = (Ok tt, w0) ->
  __init__ env w0 = (Ok tt, w1) ->
  let out := main_loop env (with_node true w1) in
  fst (teardown env (farewell (fst out) (snd out))) = Ok tt ->
  fst (main env boot)
  = match fst out with
    | Ok _ => Ok tt
    | Raise e =>
        if is_KeyboardInterrupt e || is_sdk_error e then Ok tt else Raise e
    end.
Proof.
  intros Hpre Hinit. cbv zeta. intros Hfin.
  rewrite (main_after_startup env w0 w1 Hpre Hinit). cbv zeta.
  cbn [fst]. rewrite Hfin. reflexivity.
Qed.

Lemma main_swallows_witness :
  (main_prelude interrupted boot = (Ok tt, entering interrupted) /\
   __init__ interrupted (entering interrupted)
   = (Ok tt, constructed interrupted) /\
   fst (main_loop interrupted (with_node true (constructed interrupted)))
   = Raise KeyboardInterrupt) /\
  fst (main interrupted boot) = Ok tt.
Proof.
  split.
  - split; [vm_compute; reflexivity|].
    split; vm_compute; reflexivity.
  - rewrite (main_swallows_interrupts_and_sdk_errors
               interrupted (entering interrupted) (constructed interrupted)
               ltac:(vm_compute; reflexivity) ltac:(vm_compute; reflexivity)
               ltac:(vm_compute; reflexivity)).
    vm_compute; reflexivity.
Defined.

(** *** The constructor and [shutdown] together *)

Lemma has_due (env : Env) (w : World) :
  has Estop (due_releases env w) = truthy (estop_keep_alive (self w)) /\
  has Lease (due_releases env w) = truthy (lease_keep_alive (self w)).
Proof.
  unfold due_releases.
  destruct (truthy (robot (self w)) && power_is_on env (trace w));
    destruct (truthy (estop_keep_alive (self w)));
    destruct (truthy (lease_keep_alive (self w))); split; reflexivity.
Qed.

(** X17: the guards of [shutdown] fit what the constructor leaves behind.
    When [shutdown] is called on a node whose constructor failed inside its
    [try] block, and none of its calls raises, it releases the E-Stop
    keep-alive exactly if the constructor had acquired it and the lease
    keep-alive exactly if the constructor had acquired it, in the order
    power, E-Stop, lease. *)
Theorem shutdown_after_failed_startup_releases_what_was_acquired
        (env : Env) (w w' w'' : World) (e : exn) :
  __init__ env w = (Raise e, w') ->
  entered_try (calls (since w w')) = true ->
  shutdown env w' = (Ok tt, w'') ->
  has Estop (released (calls (since w' w'')))
  = has Estop (acquired (calls (since w w'))) /\
  has Lease (released (calls (since w' w'')))
  = has Lease (acquired (calls (since w w'))) /\
  in_release_order (released (calls (since w' w''))) [Power; Estop; Lease]
  = true.
Proof.
  intros Hinit Htry Hdown.
  destruct (init_details env w _ w' Hinit) as (Hh & _).
  destruct (Hh Htry) as (_ & Hl & He).
  destruct (shutdown_outcome env w' _ w'' Hdown) as (_ & Ho & _ & _ & Hrel).
  destruct (has_due env w') as (De & Dl).
  rewrite Hrel in *. rewrite De, Dl, He, Hl. auto.
Qed.

Lemma shutdown_after_failed_startup_witness :
  (__init__ estop_setup_fails before_failed_init
   = (Raise ResponseError, after_failed_init) /\
   entered_try (calls (since before_failed_init after_failed_init)) = true /\
   shutdown estop_setup_fails after_failed_init
   = (Ok tt, snd (shutdown estop_setup_fails after_failed_init))) /\
  has Estop (released (calls (since after_failed_init
                                    (snd (shutdown estop_setup_fails
                                            after_failed_init)))))
  = has Estop (acquired (calls (since before_failed_init after_failed_init))) /\
  has Lease (released (calls (since after_failed_init
                                    (snd (shutdown estop_setup_fails
                                            after_failed_init)))))
  = has Lease (acquired (calls (since before_failed_init after_failed_init))) /\
  in_release_order
    (released (calls (since after_failed_init
                            (snd (shutdown estop_setup_fails
                                    after_failed_init)))))
    [Power; Estop; Lease] = true.
Proof.
  split.
  - split; [vm_compute; reflexivity|].
    split; vm_compute; reflexivity.
  - exact (shutdown_after_failed_startup_releases_what_was_acquired
             estop_setup_fails before_failed_init after_failed_init _
             ResponseError
             ltac:(vm_compute; reflexivity) ltac:(vm_compute; reflexivity)
             ltac:(vm_compute; reflexivity)).
Defined.

End DriverTheory.

(** ** The nav-goal listener: proofs *)

Module NavTheory.
Import NavGoalListener NavSpec.

(** C9: when the lookup of the transform from the frame of the goal into the
    robot frame raises, the listener logs a warning and drops the goal: the
    callback returns normally, nothing is asked of the action server and no
    goal is sent. *)
Theorem C9_goal_dropped_when_transform_unavailable
        (env : Env) (w : World) (msg : PoseStamped) (e : exn) :
  tf_lookup env (at_lookup w msg) (robot_frame w) (header_frame_id msg)
  = Raise e ->
  is_Exception e = true ->
  let out := goal_callback msg env w in
  fst out = Ok tt /\
  since w (snd out)
  = [ Logged INFO (FmtFrame "Received goal in frame: " (header_frame_id msg));
      lookup_transform (robot_frame w) (header_frame_id msg) 1.0 (Raise e);
      Logged WARN (FmtExn "Transform error: " e) ] /\
  filter is_goal_sent (since w (snd out)) = [].
Proof.
  intros Hl He. cbv zeta.
  assert (Hrun : goal_callback msg env w
                 = (Ok tt,
                    emit (Logged WARN (FmtExn "Transform error: " e))
                      (emit (lookup_transform (robot_frame w)
                               (header_frame_id msg) 1.0 (Raise e))
                         (emit (Logged INFO
                                  (FmtFrame "Received goal in frame: "
                                            (header_frame_id msg))) w)))).
  { cbv [goal_callback bind log modify try_except gets
         tf_buffer_lookup_transform].
    cbn [trace emit robot_frame].
    unfold at_lookup in Hl. rewrite Hl.
    cbv [answer raise]. rewrite He. reflexivity. }
  rewrite Hrun. cbn [fst snd].
  assert (Hs : since w
                 (emit (Logged WARN (FmtExn "Transform error: " e))
                    (emit (lookup_transform (robot_frame w)
                             (header_frame_id msg) 1.0 (Raise e))
                       (emit (Logged INFO
                                (FmtFrame "Received goal in frame: "
                                          (header_frame_id msg))) w)))
               = [ Logged INFO (FmtFrame "Received goal in frame: "
                                         (header_frame_id msg));
                   lookup_transform (robot_frame w) (header_frame_id msg) 1.0
                                    (Raise e);
                   Logged WARN (FmtExn "Transform error: " e) ]).
  { unfold since. cbn [trace emit]. rewrite <- !app_assoc. cbn [app].
    apply skipn_length_app. }
  rewrite Hs. repeat split.
Qed.

Lemma C9_goal_dropped_witness :
  (tf_lookup no_transform (at_lookup listener goal_in_map)
             (robot_frame listener) (header_frame_id goal_in_map)
   = Raise TransformException /\
   is_Exception TransformException = true) /\
  fst (goal_callback goal_in_map no_transform listener) = Ok tt /\
  since listener (snd (goal_callback goal_in_map no_transform listener))
  = [ Logged INFO (FmtFrame "Received goal in frame: " "map");
      lookup_transform "base_link" "map" 1.0 (Raise TransformException);
      Logged WARN (FmtExn "Transform error: " TransformException) ] /\
  filter is_goal_sent
         (since listener (snd (goal_callback goal_in_map no_transform listener)))
  = [].
Proof.
  split; [split; reflexivity|].
  apply (C9_goal_dropped_when_transform_unavailable
           no_transform listener goal_in_map TransformException);
    reflexivity.
Defined.

Ltac nav_trace :=
  unfold since; cbn [trace emit robot_frame fst snd];
  rewrite <- ?app_assoc; cbn [app]; rewrite ?skipn_length_app.

(** Every path through [goal_callback], by what the environment answers. *)
Lemma goal_callback_cases (env : Env) (w : World) (msg : PoseStamped) :
  let out := goal_callback msg env w in
  let tr := since w (snd out) in
  let hello := Logged INFO (FmtFrame "Received goal in frame: "
                                     (header_frame_id msg)) in
  let look := lookup_transform (robot_frame w) (header_frame_id msg) 1.0 in
  (* the lookup raised *)
  (exists e, tr = [hello; look (Raise e)] ++
                  (if is_Exception e
                   then [Logged WARN (FmtExn "Transform error: " e)] else []) /\
             fst out = (if is_Exception e then Ok tt else Raise e)) \/
  (* the pose could not be transformed *)
  (exists t e, do_transform_pose env (pose msg) t = Raise e /\
               tr = [hello; look (Ok t)] ++
                    (if is_Exception e
                     then [Logged WARN (FmtExn "Transform error: " e)] else []) /\
               fst out = (if is_Exception e then Ok tt else Raise e)) \/
  (* the wait for the action server raised *)
  (exists t e, tr = [hello; look (Ok t); wait_for_server 2.0 (Raise e)] /\
               fst out = Raise e) \/
  (* the action server is not there *)
  (exists t, tr = [hello; look (Ok t); wait_for_server 2.0 (Ok false);
                   server_unavailable] /\
             fst out = Ok tt) \/
  (* the goal is sent *)
  (exists t p r, tf_lookup env (at_lookup w msg) (robot_frame w)
                           (header_frame_id msg) = Ok t /\
                 do_transform_pose env (pose msg) t = Ok p /\
                 tr = [hello; look (Ok t); wait_for_server 2.0 (Ok true);
                       Logged INFO (FmtGoal (x (goal_of env p))
                                            (y (goal_of env p))
                                            (yaw (goal_of env p)));
                       send_goal_async (goal_of env p) r] /\
                 fst out = r).
Proof.
  cbv zeta.
  cbv [goal_callback bind log modify try_except gets ret ask
       tf_buffer_lookup_transform tf2_do_transform_pose
       move_client_wait_for_server move_client_send_goal_async].
  cbn [trace emit robot_frame].
  destruct (tf_lookup env _ _ _) as [t|e] eqn:L; cbv [answer ret raise].
  2: { left. exists e. destruct (is_Exception e); nav_trace; auto. }
  right.
  destruct (do_transform_pose env (pose msg) t) as [p|e] eqn:D.
  2: { left. exists t, e. destruct (is_Exception e); nav_trace; auto. }
  right. cbn [trace emit].
  destruct (server_ready env _) as [[|]|e]; cbv [answer ret raise negb].
  - right. right. exists t, p. cbn [trace emit].
    fold (goal_of env p).
    destruct (goal_sent env _ _) as [[]|e] eqn:G; cbv [answer ret raise];
      eexists; (split; [reflexivity|]); nav_trace; auto.
  - right. left. exists t. nav_trace. auto.
  - left. exists t, e. nav_trace. auto.
Qed.

(** X13: when the frame of the goal is known but the pose cannot be
    transformed, the listener handles it like a failed lookup: it logs a
    warning naming the error, returns normally, and neither waits for the
    action server nor sends a goal. *)
Theorem goal_dropped_when_pose_cannot_be_transformed
        (env : Env) (w : World) (msg : PoseStamped) (t : TransformStamped)
        (e : exn) :
  tf_lookup env (at_lookup w msg) (robot_frame w) (header_frame_id msg) = Ok t ->
  do_transform_pose env (pose msg) t = Raise e ->
  is_Exception e = true ->
  let out := goal_callback msg env w in
  fst out = Ok tt /\
  since w (snd out)
  = [ Logged INFO (FmtFrame "Received goal in frame: " (header_frame_id msg));
      lookup_transform (robot_frame w) (header_frame_id msg) 1.0 (Ok t);
      Logged WARN (FmtExn "Transform error: " e) ] /\
  goals_sent (since w (snd out)) = [].
Proof.
  intros Hl Hd He. cbv zeta.
  cbv [goal_callback bind log modify try_except gets ret
       tf_buffer_lookup_transform tf2_do_transform_pose].
  cbn [trace emit robot_frame]. unfold at_lookup in Hl. rewrite Hl.
  cbv [answer ret raise]. rewrite Hd, He.
  nav_trace. repeat split.
Qed.

Lemma goal_dropped_untransformed_witness :
  (tf_lookup transform_fails (at_lookup listener goal_in_map)
             (robot_frame listener) (header_frame_id goal_in_map)
   = Ok identity_transform /\
   do_transform_pose transform_fails (pose goal_in_map) identity_transform
   = Raise RuntimeError /\
   is_Exception RuntimeError = true) /\
  fst (goal_callback goal_in_map transform_fails listener) = Ok tt /\
  since listener (snd (goal_callback goal_in_map transform_fails listener))
  = [ Logged INFO (FmtFrame "Received goal in frame: " "map");
      lookup_transform "base_link" "map" 1.0 (Ok identity_transform);
      Logged WARN (FmtExn "Transform error: " RuntimeError) ] /\
  goals_sent (since listener
                    (snd (goal_callback goal_in_map transform_fails listener)))
  = [].
Proof.
  split; [repeat split|].
  exact (goal_dropped_when_pose_cannot_be_transformed
           transform_fails listener goal_in_map identity_transform RuntimeError
           eq_refl eq_refl eq_refl).
Defined.

(** X14: when the action server is not available within the timeout, the
    listener logs the warning that says so as its last action, returns
    normally and sends no goal. *)
Theorem goal_dropped_when_server_unavailable
        (env : Env) (w : World) (msg : PoseStamped) :
  let out := goal_callback msg env w in
  existsb server_was_down (since w (snd out)) = true ->
  fst out = Ok tt /\
  goals_sent (since w (snd out)) = [] /\
  (exists t,
     since w (snd out)
     = [ Logged INFO (FmtFrame "Received goal in frame: " (header_frame_id msg));
         lookup_transform (robot_frame w) (header_frame_id msg) 1.0 (Ok t);
         wait_for_server 2.0 (Ok false);
         server_unavailable ]).
Proof.
  cbv zeta. intros H.
  destruct (goal_callback_cases env w msg)
    as [(e & T & R)|[(t & e & _ & T & R)|[(t & e & T & R)|[(t & T & R)|
        (t & p & r & _ & _ & T & R)]]]];
    rewrite T in H |- *.
  - destruct (is_Exception e); discriminate H.
  - destruct (is_Exception e); discriminate H.
  - discriminate H.
  - split; [exact R|]. split; [reflexivity|]. now exists t.
  - discriminate H.
Qed.

Lemma goal_dropped_server_witness :
  existsb server_was_down
          (since listener (snd (goal_callback goal_in_map server_down listener)))
  = true /\
  fst (goal_callback goal_in_map server_down listener) = Ok tt /\
  goals_sent (since listener
                    (snd (goal_callback goal_in_map server_down listener)))
  = [].
Proof.
  split; [reflexivity|].
  pose proof (goal_dropped_when_server_unavailable
                server_down listener goal_in_map eq_refl) as (R & G & _).
  exact (conj R G).
Defined.

(** X15: when the action server is ready, the listener sends exactly one
    goal.  The transform it uses is the one the lookup answered for the robot
    frame as target and the frame of the goal as source; the x and y of the
    goal are those of the position of the goal pose under that transform, its
    yaw is the third Euler angle of the transformed orientation; the callback
    returns what sending the goal returns. *)
Theorem goal_sent_when_server_ready
        (env : Env) (w : World) (msg : PoseStamped) :
  let out := goal_callback msg env w in
  existsb server_was_ready (since w (snd out)) = true ->
  exists t p,
    tf_lookup env (at_lookup w msg) (robot_frame w) (header_frame_id msg)
    = Ok t /\
    do_transform_pose env (pose msg) t = Ok p /\
    since w (snd out)
    = [ Logged INFO (FmtFrame "Received goal in frame: " (header_frame_id msg));
        lookup_transform (robot_frame w) (header_frame_id msg) 1.0 (Ok t);
        wait_for_server 2.0 (Ok true);
        Logged INFO (FmtGoal (vx (pose_position p)) (vy (pose_position p))
                             (snd (euler_from_quaternion env (orientation p))));
        send_goal_async (goal_of env p) (fst out) ] /\
    existsb lookup_succeeded (since w (snd out)) = true /\
    goals_sent (since w (snd out))
    = [ {| x := vx (pose_position p);
           y := vy (pose_position p);
           yaw := snd (euler_from_quaternion env (orientation p)) |} ] /\
    In (send_goal_async (goal_of env p) (fst out)) (since w (snd out)).
Proof.
  cbv zeta. intros H.
  destruct (goal_callback_cases env w msg)
    as [(e & T & R)|[(t & e & _ & T & R)|[(t & e & T & R)|[(t & T & R)|
        (t & p & r & L & D & T & R)]]]];
    rewrite T in H |- *.
  - destruct (is_Exception e); discriminate H.
  - destruct (is_Exception e); discriminate H.
  - discriminate H.
  - discriminate H.
  - exists t, p. split; [exact L|]. split; [exact D|].
    split; [rewrite R; reflexivity|].
    split; [reflexivity|]. split; [reflexivity|]. rewrite R. cbn. auto 10.
Qed.

Lemma goal_sent_witness :
  existsb server_was_ready
          (since listener (snd (goal_callback goal_in_map all_ready listener)))
  = true /\
  exists t p,
    tf_lookup all_ready (at_lookup listener goal_in_map)
              (robot_frame listener) (header_frame_id goal_in_map)
    = Ok t /\
    do_transform_pose all_ready (pose goal_in_map) t = Ok p /\
    since listener (snd (goal_callback goal_in_map all_ready listener))
    = [ Logged INFO (FmtFrame "Received goal in frame: "
                              (header_frame_id goal_in_map));
        lookup_transform (robot_frame listener) (header_frame_id goal_in_map)
                         1.0 (Ok t);
        wait_for_server 2.0 (Ok true);
        Logged INFO (FmtGoal (vx (pose_position p)) (vy (pose_position p))
                             (snd (euler_from_quaternion all_ready
                                                         (orientation p))));
        send_goal_async (goal_of all_ready p)
                        (fst (goal_callback goal_in_map all_ready listener)) ] /\
    existsb lookup_succeeded
            (since listener (snd (goal_callback goal_in_map all_ready listener)))
    = true /\
    goals_sent (since listener
                      (snd (goal_callback goal_in_map all_ready listener)))
    = [ {| x := vx (pose_position p);
           y := vy (pose_position p);
           yaw := snd (euler_from_quaternion all_ready (orientation p)) |} ] /\
    In (send_goal_async (goal_of all_ready p)
                        (fst (goal_callback goal_in_map all_ready listener)))
       (since listener (snd (goal_callback goal_in_map all_ready listener))).
Proof.
  split; [reflexivity|].
  exact (goal_sent_when_server_ready all_ready listener goal_in_map eq_refl).
Defined.

(** X16: whatever the environment does, a call of [goal_callback] sends at
    most one goal, and it sends one only after the transform lookup succeeded
    and the action server was found ready. *)
Theorem at_most_one_goal_and_only_when_ready
        (env : Env) (w : World) (msg : PoseStamped) :
  let tr := since w (snd (goal_callback msg env w)) in
  match goals_sent tr with
  | [] => True
  | [_] => existsb lookup_succeeded tr = true /\
           existsb server_was_ready tr = true
  | _ => False
  end.
Proof.
  cbv zeta.
  destruct (goal_callback_cases env w msg)
    as [(e & T & R)|[(t & e & _ & T & R)|[(t & e & T & R)|[(t & T & R)|
        (t & p & r & _ & _ & T & R)]]]];
    rewrite T.
  - destruct (is_Exception e); exact I.
  - destruct (is_Exception e); exact I.
  - exact I.
  - exact I.
  - split; reflexivity.
Qed.

End NavTheory.
